(** * Todo_App: the task page, the API client and the chat panel

    A shallow embedding of the TypeScript sources
      - [types.ts]                       (Task, TaskCreate),
      - [lib/api.ts]                     (the fetch wrappers),
      - [app/page.tsx]                   (the task page and its handlers),
      - [components/ChatInterface.tsx]   (the chat panel),
    followed by the conversational interpreter, which the repository keeps
    in its backend and which is modelled here from the specification.

    An [async] handler is split where it awaits: the part that runs up to
    the [await] returns the request it issues, and the part that runs once
    the promise settles takes the outcome of the fetch.  React state is
    passed explicitly; a functional update [setX(prev => ...)] reads the
    state of the moment the continuation runs. *)

From Stdlib Require Import ZArith NArith String Ascii.
From stdpp Require Import base tactics option list pretty.

Local Open Scope Z_scope.

(** ** JavaScript strings *)

Module JS.

(** A JavaScript string is a sequence of UTF-16 code units. *)
Definition code_unit := N.
Definition jsstring := list code_unit.

(** String literals of the sources are ASCII. *)
Definition lit (s : string) : jsstring :=
  N_of_ascii <$> list_ascii_of_string s.

(** ECMAScript WhiteSpace and LineTerminator code points, the characters
    [String.prototype.trim] strips.  All of them are in the basic plane,
    so the test is per code unit. *)
Definition is_white_space (c : code_unit) : bool :=
  ((9 <=? c) && (c <=? 13))%N                 (* TAB LF VT FF CR *)
  || (c =? 32)%N                               (* SPACE *)
  || (c =? 160)%N                              (* NO-BREAK SPACE *)
  || (c =? 5760)%N                             (* OGHAM SPACE MARK *)
  || ((8192 <=? c) && (c <=? 8202))%N          (* EN QUAD .. HAIR SPACE *)
  || (c =? 8232)%N || (c =? 8233)%N            (* LINE / PARAGRAPH SEP *)
  || (c =? 8239)%N || (c =? 8287)%N            (* NNBSP, MMSP *)
  || (c =? 12288)%N                            (* IDEOGRAPHIC SPACE *)
  || (c =? 65279)%N.                           (* ZERO WIDTH NO-BREAK SPACE *)

Fixpoint trimStart (s : jsstring) : jsstring :=
  match s with
  | [] => []
  | c :: r => if is_white_space c then trimStart r else s
  end.

Definition trimEnd (s : jsstring) : jsstring :=
  reverse (trimStart (reverse s)).

(** [s.trim()] *)
Definition trim (s : jsstring) : jsstring := trimEnd (trimStart s).

(** [!s] for a string: true exactly for the empty string. *)
Definition not_string (s : jsstring) : bool :=
  match s with [] => true | _ :: _ => false end.

(** [a || b] where [a] is [string | undefined]: the first operand unless
    it is falsy ([undefined] or the empty string). *)
Definition or_default (a : option jsstring) (b : jsstring) : jsstring :=
  match a with
  | Some s => if not_string s then b else s
  | None => b
  end.

End JS.

Import JS.

(** ** types.ts *)

Inductive Status := incomplete | complete.

Record Task := mkTask {
id : Z;
title : jsstring;
description : option jsstring;   (* string | null *)
status : Status;
user_id : jsstring;
created_at : jsstring;
updated_at : jsstring
}.

Record TaskCreate := mkTaskCreate {
tc_title : jsstring;
tc_description : option jsstring  (* description?: string *)
}.

Global Instance Status_eq_dec : EqDecision Status.
Proof. solve_decision. Defined.

Global Instance Task_eq_dec : EqDecision Task.
Proof. solve_decision. Defined.

(** ** lib/api.ts *)

Module Api.

Inductive Method := GET | POST | PUT | DELETE | PATCH.

(** The path after [API_BASE_URL]. *)
Inductive Endpoint :=
| ApiTasks                       (* /api/tasks *)
| ApiTask (task_id : Z)          (* /api/tasks/${id} *)
| ApiTaskComplete (task_id : Z)  (* /api/tasks/${id}/complete *)
| ApiChat.                       (* /api/chat *)

(** What [JSON.stringify] is applied to. *)
Inductive Body :=
| NoBody
| TaskCreateBody (taskData : TaskCreate)
| ChatBody (message : jsstring) (userId : jsstring).

Record Request := mkRequest {
  endpoint : Endpoint;
  method : Method;
  headers : list (jsstring * jsstring);
  body : Body
}.

(** How an awaited [fetch] settles: the promise rejects, or it resolves to
    a response whose [json()] either yields a value or rejects. *)
Inductive FetchOutcome (A : Type) :=
| NetworkFailure
| HttpResponse (ok : bool) (http_status : Z) (json : option A).
Arguments NetworkFailure {A}.
Arguments HttpResponse {A} ok http_status json.

Inductive Error :=
| FetchRejected
| HttpError (operation : jsstring) (http_status : Z)
| JsonRejected.

(** The result of awaiting one of the wrappers: it returns or it throws. *)
Inductive Result (A : Type) :=
| Return (a : A)
| Throw (e : Error).
Arguments Return {A} a.
Arguments Throw {A} e.

Definition getAuthHeaders : list (jsstring * jsstring) := [].

Definition json_headers : list (jsstring * jsstring) :=
  (lit "Content-Type", lit "application/json") :: getAuthHeaders.

(** The shared tail of the wrappers that read a JSON reply:
    [if (!response.ok) throw ...; return await response.json()],
    inside [try { ... } catch (error) { ...; throw error }]. *)
Definition read_json {A} (operation : string) (o : FetchOutcome A) : Result A :=
  match o with
  | NetworkFailure => Throw FetchRejected
  | HttpResponse ok st js =>
      if negb ok then Throw (HttpError (lit operation) st)
      else match js with
           | Some a => Return a
           | None => Throw JsonRejected
           end
  end.

Definition getTasks_request : Request :=
  mkRequest ApiTasks GET json_headers NoBody.
Definition getTasks_result (o : FetchOutcome (list Task)) : Result (list Task) :=
  read_json "Failed to fetch tasks: " o.

Definition createTask_request (taskData : TaskCreate) : Request :=
  mkRequest ApiTasks POST json_headers (TaskCreateBody taskData).
Definition createTask_result (o : FetchOutcome Task) : Result Task :=
  read_json "Failed to create task: " o.

Definition deleteTask_request (task_id : Z) : Request :=
  mkRequest (ApiTask task_id) DELETE json_headers NoBody.
(** [deleteTask] does not read the reply's body. *)
Definition deleteTask_result (o : FetchOutcome unit) : Result unit :=
  match o with
  | NetworkFailure => Throw FetchRejected
  | HttpResponse ok st _ =>
      if negb ok then Throw (HttpError (lit "Failed to delete task: ") st)
      else Return tt
  end.

Definition toggleTaskStatus_request (task_id : Z) : Request :=
  mkRequest (ApiTaskComplete task_id) PATCH json_headers NoBody.
Definition toggleTaskStatus_result (o : FetchOutcome Task) : Result Task :=
  read_json "Failed to toggle task status: " o.

Record ChatReply := mkChatReply { response : jsstring }.

Definition mock_user : jsstring := lit "mock-user-uuid".

(** [sendMessage(message, userId?)]: the body carries
    [userId: userId || 'mock-user-uuid']. *)
Definition forwarded_user (userId : option jsstring) : jsstring :=
  or_default userId mock_user.

Definition sendMessage_request (message : jsstring) (userId : option jsstring)
  : Request :=
  mkRequest ApiChat POST json_headers (ChatBody message (forwarded_user userId)).
Definition sendMessage_result (o : FetchOutcome ChatReply) : Result ChatReply :=
  read_json "Failed to send message: " o.

End Api.

Import Api.

(** ** app/page.tsx *)

Module Home.

Record State := mkState {
  tasks : list Task;
  newTask : TaskCreate;
  loading : bool;
  error : option jsstring     (* string | null *)
}.

Definition set_tasks (l : list Task) (st : State) : State :=
  mkState l (newTask st) (loading st) (error st).
Definition set_newTask (t : TaskCreate) (st : State) : State :=
  mkState (tasks st) t (loading st) (error st).
Definition set_error (e : option jsstring) (st : State) : State :=
  mkState (tasks st) (newTask st) (loading st) e.

Definition set_loading (b : bool) (st : State) : State :=
  mkState (tasks st) (newTask st) b (error st).

Definition empty_form : TaskCreate := mkTaskCreate (lit "") (Some (lit "")).

(** [useState] initial values. *)
Definition initial : State := mkState [] empty_form true None.

(** The effect run on mount, [fetchTasks]: up to [await getTasks()], and
    once it has settled ([finally] clears [loading]). *)
Definition fetchTasks_begin (st : State) : State * option Request :=
  (set_loading true st, Some getTasks_request).

Definition fetchTasks_settle (o : FetchOutcome (list Task)) (st : State) : State :=
  set_loading false
    match getTasks_result o with
    | Return tasksData => set_tasks tasksData st
    | Throw _ => set_error (Some (lit "Failed to load tasks. Please try again later.")) st
    end.

Inductive Field := title_field | description_field.

(** [handleInputChange]: [setNewTask(prev => ({ ...prev, [name]: value }))]. *)
Definition handleInputChange (name : Field) (value : jsstring) (st : State) : State :=
  match name with
  | title_field => set_newTask (mkTaskCreate value (tc_description (newTask st))) st
  | description_field => set_newTask (mkTaskCreate (tc_title (newTask st)) (Some value)) st
  end.

(** [handleSubmit], up to [await createTask(newTask)]. *)
Definition handleSubmit_begin (st : State) : State * option Request :=
  if not_string (trim (tc_title (newTask st))) then
    (set_error (Some (lit "Title is required")) st, None)
  else
    (st, Some (createTask_request (newTask st))).

(** [handleSubmit], once the call has settled. *)
Definition handleSubmit_settle (o : FetchOutcome Task) (st : State) : State :=
  match createTask_result o with
  | Return createdTask =>
      set_error None
        (set_newTask empty_form
          (set_tasks (createdTask :: tasks st) st))
  | Throw _ =>
      set_error (Some (lit "Failed to create task. Please try again.")) st
  end.

(** [prev.map(task => task.id === id ? updatedTask : task)] *)
Definition replace_task (task_id : Z) (updatedTask : Task) (prev : list Task)
  : list Task :=
  (fun task => if decide (id task = task_id) then updatedTask else task) <$> prev.

(** The number of positions at which two lists differ. *)
Definition changed_positions (prev next : list Task) : nat :=
  length (filter (fun p => p.1 <> p.2) (zip prev next)).

Definition handleToggleStatus_begin (task_id : Z) (st : State)
  : State * option Request :=
  (st, Some (toggleTaskStatus_request task_id)).

Definition handleToggleStatus_settle (task_id : Z) (o : FetchOutcome Task)
    (st : State) : State :=
  match toggleTaskStatus_result o with
  | Return updatedTask => set_tasks (replace_task task_id updatedTask (tasks st)) st
  | Throw _ =>
      set_error (Some (lit "Failed to update task status. Please try again.")) st
  end.

(** [prev.filter(task => task.id !== id)] *)
Definition remove_task (task_id : Z) (prev : list Task) : list Task :=
  filter (fun task => id task ≠ task_id) prev.

Definition handleDelete_begin (task_id : Z) (st : State)
  : State * option Request :=
  (st, Some (deleteTask_request task_id)).

Definition handleDelete_settle (task_id : Z) (o : FetchOutcome unit)
    (st : State) : State :=
  match deleteTask_result o with
  | Return _ => set_tasks (remove_task task_id (tasks st)) st
  | Throw _ =>
      set_error (Some (lit "Failed to delete task. Please try again.")) st
  end.

End Home.

(** ** components/ChatInterface.tsx *)

Module Chat.

Inductive Role := user | assistant.

Global Instance Role_eq_dec : EqDecision Role.
Proof. solve_decision. Defined.

Record Message := mkMessage {
  msg_id : jsstring;
  content : jsstring;
  role : Role;
  timestamp : Z                 (* a Date, as milliseconds *)
}.

Record State := mkState {
  inputMessage : jsstring;
  messages : list Message;
  isLoading : bool
}.

(** The two clock readings taken when a message object is built:
    [Date.now()] for the id and [new Date()] for the timestamp. *)
Record Clock := mkClock { date_now : Z; new_date : Z }.

Definition new_message (now : Clock) (text : jsstring) (r : Role) : Message :=
  mkMessage (lit (pretty (date_now now))) text r (new_date now).

Definition apology : jsstring :=
  lit "Sorry, there was an error processing your request. Please try again.".

(** [!inputMessage.trim() || isLoading]: the guard of [handleSubmit], and
    the [disabled] attribute of the Send button. *)
Definition submit_blocked (st : State) : bool :=
  not_string (trim (inputMessage st)) || isLoading st.

(** [setMessages(prev => [...prev, m])] *)
Definition push_message (m : Message) (st : State) : State :=
  mkState (inputMessage st) (messages st ++ [m]) (isLoading st).
Definition set_inputMessage (s : jsstring) (st : State) : State :=
  mkState s (messages st) (isLoading st).
Definition set_isLoading (b : bool) (st : State) : State :=
  mkState (inputMessage st) (messages st) b.

Section Panel.

(** The component's prop [userId?: string]. *)
Variable userId : option jsstring.

(** [handleSubmit], up to [await sendMessage(inputMessage, userId)]. *)
Definition handleSubmit_begin (now : Clock) (st : State)
  : State * option Request :=
  if submit_blocked st then (st, None)
  else
    let userMessage := new_message now (inputMessage st) user in
    (set_isLoading true (set_inputMessage (lit "") (push_message userMessage st)),
     Some (sendMessage_request (inputMessage st) userId)).

(** [handleSubmit], once [sendMessage] has settled: the [try] body or
    the [catch] body, then [finally]. *)
Definition handleSubmit_settle (now : Clock) (o : FetchOutcome ChatReply)
    (st : State) : State :=
  match sendMessage_result o with
  | Return data =>
      set_isLoading false (push_message (new_message now (response data) assistant) st)
  | Throw _ =>
      set_isLoading false (push_message (new_message now apology assistant) st)
  end.

(** A whole turn with nothing in between: the handler, and, when it
    issued a request, its continuation. *)
Definition turn (t_submit t_settle : Clock) (o : FetchOutcome ChatReply)
    (st : State) : State :=
  match handleSubmit_begin t_submit st with
  | (st', Some _) => handleSubmit_settle t_settle o st'
  | (st', None) => st'
  end.

(** *** The panel over time

    What the component and its environment hold between events: the
    React state, the calls of [sendMessage] that have not settled yet,
    and every request issued so far. *)
Record Session := mkSession {
  view : State;
  in_flight : list Request;
  sent : list Request
}.

(** The input field and the Send button carry [disabled] while
    [isLoading]; the events below do not rely on it, as [handleSubmit] does
    not: its guard tests [isLoading] itself. *)
Inductive Event :=
| Change (text : jsstring)                          (* onChange of the input *)
| Submit (now : Clock)                              (* onSubmit of the form *)
| Settle (now : Clock) (o : FetchOutcome ChatReply). (* the oldest call settles *)

Definition initial : Session :=
  mkSession (mkState (lit "") [] false) [] [].

(** [None]: the event cannot happen (nothing is there to settle). *)
Definition step (e : Event) (s : Session) : option Session :=
  match e with
  | Change text => Some (mkSession (set_inputMessage text (view s)) (in_flight s) (sent s))
  | Submit now =>
      match handleSubmit_begin now (view s) with
      | (st', Some req) => Some (mkSession st' (in_flight s ++ [req]) (sent s ++ [req]))
      | (st', None) => Some (mkSession st' (in_flight s) (sent s))
      end
  | Settle now o =>
      match in_flight s with
      | [] => None
      | _ :: rest => Some (mkSession (handleSubmit_settle now o (view s)) rest (sent s))
      end
  end.

Fixpoint run (es : list Event) (s : Session) : option Session :=
  match es with
  | [] => Some s
  | e :: es' =>
      match step e s with
      | Some s' => run es' s'
      | None => None
      end
  end.

(** The utterances submitted while a call was in flight in the course of a
    run: the content of the input field at each such [Submit]. *)
Fixpoint submitted_in_flight (es : list Event) (s : Session) : list jsstring :=
  match es with
  | [] => []
  | e :: es' =>
      match step e s with
      | Some s' =>
          match e, in_flight s with
          | Submit _, _ :: _ => inputMessage (view s) :: submitted_in_flight es' s'
          | _, _ => submitted_in_flight es' s'
          end
      | None => []
      end
  end.

Definition message_of (r : Request) : option jsstring :=
  match body r with
  | ChatBody m _ => Some m
  | _ => None
  end.

End Panel.

Definition responses (l : list Message) : list Message :=
  filter (fun m => role m = assistant) l.

(** The responses a handler added: those among the messages of [st'] past
    the ones [st] already had. *)
Definition new_responses (st st' : State) : list Message :=
  responses (drop (length (messages st)) (messages st')).

End Chat.

(** ** The conversational interpreter

    The classifier, the slot extractor and the reference resolver live in
    the backend behind [POST /api/chat]; the client sources only call them.
    They are modelled from the specification's component design. *)

Module Interpreter.

Definition text := list ascii.

Definition lower_char (c : ascii) : ascii :=
  let n := nat_of_ascii c in
  if ((65 <=? n) && (n <=? 90))%nat then ascii_of_nat (n + 32) else c.

Definition lower (s : text) : text := lower_char <$> s.

Definition is_digit (c : ascii) : bool :=
  let n := nat_of_ascii c in ((48 <=? n) && (n <=? 57))%nat.

Definition digit_value (c : ascii) : N := N.of_nat (nat_of_ascii c - 48).

Definition parse_decimal (ds : text) : N :=
  fold_left (fun acc d => (10 * acc + digit_value d)%N) ds 0%N.

Fixpoint take_digits (s : text) : text :=
  match s with
  | c :: r => if is_digit c then c :: take_digits r else []
  | [] => []
  end.

Fixpoint starts_with (p s : text) : bool :=
  match p, s with
  | [], _ => true
  | a :: p', b :: s' => if decide (a = b) then starts_with p' s' else false
  | _ :: _, [] => false
  end.

(** The text after the first occurrence of [p] in [s]. *)
Fixpoint find_after (p s : text) : option text :=
  if starts_with p s then Some (drop (length p) s)
  else match s with
       | [] => None
       | _ :: r => find_after p r
       end.

Definition contains (p s : text) : bool := bool_decide (is_Some (find_after p s)).

(** *** Intent classifier *)

Inductive Intent := AddTask | ListTasks | CompleteTask | Unclear.

(** The three categories that have rules. *)
Inductive Category := CompleteTaskRules | AddTaskRules | ListTasksRules.

Global Instance Category_eq_dec : EqDecision Category.
Proof. solve_decision. Defined.

Definition intent_of (c : Category) : Intent :=
  match c with
  | CompleteTaskRules => CompleteTask
  | AddTaskRules => AddTask
  | ListTasksRules => ListTasks
  end.

(** Modelled from the spec: a trigger phrase or keyword of the classifier's
    rule table, which is not among the sources.  A phrase is its pieces in
    order, ["mark ... complete"] being the two pieces [mark] and
    [complete]; it matches an utterance that contains the pieces in that
    order, letter case ignored (["Show my tasks"] is to match [show]). *)
Definition Trigger := list string.

(** Modelled from the spec: whether the pieces occur in order in the text,
    the matching of a trigger phrase of the absent rule table. *)
Fixpoint pieces_occur (pieces : list text) (s : text) : bool :=
  match pieces with
  | [] => true
  | p :: ps =>
      match find_after p s with
      | Some rest => pieces_occur ps rest
      | None => false
      end
  end.

(** Modelled from the spec: a trigger of the absent rule table matches an
    utterance when its pieces occur in it, case-insensitively. *)
Definition trigger_matches (t : Trigger) (utterance : string) : bool :=
  pieces_occur ((fun p => lower (list_ascii_of_string p)) <$> t)
               (lower (list_ascii_of_string utterance)).

Definition trigger_length (t : Trigger) : nat :=
  foldr (fun p n => (String.length p + n)%nat) 0%nat t.

(** Modelled from the spec: a pattern rule of the classifier, "a set of
    trigger phrases/keywords" grouped under an intent category; the rule
    table itself is configuration data. *)
Record Rule := mkRule {
  category : Category;
  triggers : list Trigger
}.

(** Modelled from the spec: the matched triggers of one priority band, in
    table order (the classifier is not among the sources). *)
Definition band_matches (rules : list Rule) (c : Category) (utterance : string)
  : list Trigger :=
  r ← filter (fun r => category r = c) rules;
  filter (fun t => trigger_matches t utterance = true) (triggers r).

(** Modelled from the spec: "ties within the same priority band are broken
    by longest matched trigger phrase" (the classifier is not among the
    sources); of equally long phrases the earlier one stays. *)
Fixpoint longest (ts : list Trigger) : option Trigger :=
  match ts with
  | [] => None
  | t :: rest =>
      match longest rest with
      | Some t' => if (trigger_length t <? trigger_length t')%nat then Some t' else Some t
      | None => Some t
      end
  end.

Definition priority : list Category :=
  [CompleteTaskRules; AddTaskRules; ListTasksRules].

(** Modelled from the spec: the classifier's search, which is not among the
    sources: "CompleteTask rules first, then AddTask, then ListTasks; first
    matching rule wins". *)
Fixpoint first_band (rules : list Rule) (bands : list Category) (utterance : string)
  : option (Category * Trigger) :=
  match bands with
  | [] => None
  | c :: rest =>
      match longest (band_matches rules c utterance) with
      | Some t => Some (c, t)
      | None => first_band rules rest utterance
      end
  end.

(** Modelled from the spec: [classify(utterance) -> Intent] of the absent
    classifier: the band of the first match, and "if no rule matches,
    intent is Unclear". *)
Definition classify (rules : list Rule) (utterance : string) : Intent :=
  match first_band rules priority utterance with
  | Some (c, _) => intent_of c
  | None => Unclear
  end.

(** The trigger phrases the specification names as examples. *)
Definition example_rules : list Rule :=
  [ mkRule CompleteTaskRules [["finished"]; ["done"]; ["mark"; "complete"]];
    mkRule AddTaskRules [["remind me"]; ["add a task"]; ["need to"]];
    mkRule ListTasksRules [["show"]; ["what's on my list"]; ["what do I have"]] ]%string.

(** *** Reference expressions and their resolution *)

Record TaskRecord := mkTaskRecord {
  rec_id : Z;
  rec_title : string;
  rec_description : option string;
  rec_status : Status
}.

Abbreviation TaskSnapshot := (list TaskRecord).

Inductive Ordinal :=
| Nth (k : nat)      (* "first" is [Nth 0], "second" is [Nth 1] *)
| Last.

Inductive ReferenceExpression :=
| ExplicitId (n : Z)
| TitleMention (mention : string)
| PositionalMention (ordinal : Ordinal) (filterScope : option Status).

Inductive ResolutionResult :=
| Resolved (taskId : Z)
| NotFound
| Ambiguous (candidateIds : list Z).

Definition same_title (mention : string) (t : TaskRecord) : bool :=
  bool_decide (lower (list_ascii_of_string (rec_title t))
               = lower (list_ascii_of_string mention)).

Definition title_contains (mention : string) (t : TaskRecord) : bool :=
  contains (lower (list_ascii_of_string mention))
           (lower (list_ascii_of_string (rec_title t))).

(** Modelled from the spec: [resolve(expr, snapshot) -> ResolutionResult]
    of the reference resolver, which is not among the sources.
    ExplicitId: "Resolved if exactly one match, else NotFound".
    TitleMention: "case-insensitive exact title match; if none,
    case-insensitive substring match", one candidate Resolved, none
    NotFound, several Ambiguous.
    PositionalMention: "index into the snapshot in its given order
    (optionally pre-filtered by status)", out of range NotFound. *)
Definition resolve (expr : ReferenceExpression) (snapshot : TaskSnapshot)
  : ResolutionResult :=
  match expr with
  | ExplicitId n =>
      match filter (fun t => rec_id t = n) snapshot with
      | [_] => Resolved n
      | _ => NotFound
      end
  | TitleMention mention =>
      let exact := filter (fun t => same_title mention t = true) snapshot in
      let candidates :=
        match exact with
        | [] => filter (fun t => title_contains mention t = true) snapshot
        | _ :: _ => exact
        end in
      match candidates with
      | [] => NotFound
      | [t] => Resolved (rec_id t)
      | _ => Ambiguous (rec_id <$> candidates)
      end
  | PositionalMention ordinal filterScope =>
      let listed :=
        match filterScope with
        | None => snapshot
        | Some st => filter (fun t => rec_status t = st) snapshot
        end in
      match (match ordinal with Nth k => listed !! k | Last => last listed end) with
      | Some t => Resolved (rec_id t)
      | None => NotFound
      end
  end.

Definition is_letter (c : ascii) : bool :=
  let n := nat_of_ascii c in
  (((65 <=? n) && (n <=? 90)) || ((97 <=? n) && (n <=? 122)))%nat.

Definition is_word_char (c : ascii) : bool := is_letter c || is_digit c.

(** The number written by the digits at the head of the text. *)
Definition number_at (s : text) : option N :=
  match take_digits s with
  | [] => None
  | ds => Some (parse_decimal ds)
  end.

(** Modelled from the spec: the id named by an explicit token that begins
    at the head of the text, ["#<digits>"] or the word ["task"] followed by
    a space and digits; [after_word] tells whether the character before
    the text is a letter or a digit, in which case no word begins here.
    Part of the slot extractor, which is not among the sources. *)
Definition explicit_id_here (after_word : bool) (s : text) : option N :=
  match s with
  | [] => None
  | c :: r =>
      if decide (c = "#"%char) then number_at r
      else if negb after_word
              && starts_with (list_ascii_of_string "task ") (lower s)
           then number_at (drop 5 s)
           else None
  end.

(** Modelled from the spec: the ids named by the explicit tokens of a text,
    in the order of the text (the slot extractor is not among the
    sources). *)
Fixpoint explicit_ids_from (after_word : bool) (s : text) : list N :=
  match s with
  | [] => []
  | c :: r =>
      option_list (explicit_id_here after_word s)
      ++ explicit_ids_from (is_word_char c) r
  end.

Definition explicit_ids (s : string) : list N :=
  explicit_ids_from false (list_ascii_of_string s).

Section Extraction.

(** How a title or an ordinal is recognised in an utterance without an
    explicit id ("a quoted or clearly-nominal phrase", "ordinal words"), and
    what is made of an utterance that names several different ids, is left
    open by the specification; [None] stands for IncompleteSlots. *)
Variable extract_mention : string -> option ReferenceExpression.
Variable extract_several : list N -> string -> option ReferenceExpression.

(** Modelled from the spec: the CompleteTask case of
    [extract(utterance, intent)], which is not among the sources: "an
    explicit #<digits> or task <digits> token becomes ExplicitId", before
    any title or positional reading. *)
Definition extract_reference (utterance : string) : option ReferenceExpression :=
  match remove_dups (explicit_ids utterance) with
  | [] => extract_mention utterance
  | [n] => Some (ExplicitId (Z.of_N n))
  | ids => extract_several ids utterance
  end.

(** Modelled from the spec: reference resolution of a CompleteTask turn
    against the snapshot fetched for it, extraction then [resolve]; the
    state machine that runs them is not among the sources. *)
Definition resolve_reference (utterance : string) (snapshot : TaskSnapshot)
  : option ResolutionResult :=
  (fun expr => resolve expr snapshot) <$> extract_reference utterance.

End Extraction.

End Interpreter.

(** ** lib/api.ts, continued: [updateTask] *)

Module ApiMore.

(** The value a reply carries when it is [ok] and its body parses: what the
    wrappers built on [response.json()] return. *)
Definition returned {A} (o : FetchOutcome A) : option A :=
  match o with
  | HttpResponse true _ (Some a) => Some a
  | _ => None
  end.

(** Whether a reply is [ok], which is all [deleteTask] looks at. *)
Definition accepted {A} (o : FetchOutcome A) : bool :=
  match o with
  | HttpResponse true _ _ => true
  | _ => false
  end.

(** [TaskUpdate] of types.ts: both fields are optional. *)
Record TaskUpdate := mkTaskUpdate {
  tu_title : option jsstring;
  tu_description : option jsstring
}.

(** The request of [updateTask]; its body is the update itself. *)
Record UpdateRequest := mkUpdateRequest {
  up_endpoint : Endpoint;
  up_method : Method;
  up_headers : list (jsstring * jsstring);
  up_body : TaskUpdate
}.

Definition updateTask_request (task_id : Z) (taskData : TaskUpdate) : UpdateRequest :=
  mkUpdateRequest (ApiTask task_id) PUT json_headers taskData.
Definition updateTask_result (o : FetchOutcome Task) : Result Task :=
  read_json "Failed to update task: " o.

End ApiMore.

Import ApiMore.

(** ** app/page.tsx, continued: what is rendered, and the page over time *)

Module HomeView.

(** [tasks.filter(t => t.status === 'complete').length] and
    [tasks.filter(t => t.status === 'incomplete').length] of the header. *)
Definition completed_count (tasks : list Task) : nat :=
  length (filter (fun t => status t = complete) tasks).
Definition pending_count (tasks : list Task) : nat :=
  length (filter (fun t => status t = incomplete) tasks).

(** [{tasks.length > 0 && ( ... {tasks.length} {tasks.length === 1 ? 'task' : 'tasks'})}] *)
Definition task_badge (tasks : list Task) : option (nat * jsstring) :=
  if (0 <? length tasks)%nat
  then Some (length tasks, if (length tasks =? 1)%nat then lit "task" else lit "tasks")
  else None.

(** [{task.description && ( ... {task.description} ...)}]: nothing is shown
    for [null] and for the empty string. *)
Definition shown_description (t : Task) : option jsstring :=
  match description t with
  | Some d => if not_string d then None else Some d
  | None => None
  end.

(** One card of the list: its React key, its title and description, whether
    it is drawn as done, and the label of its round button (the status
    badge and the formatted creation date are left out). *)
Record Row := mkRow {
  row_key : Z;
  row_title : jsstring;
  row_description : option jsstring;
  row_done : bool;
  row_toggle_label : jsstring
}.

Definition row (t : Task) : Row :=
  mkRow (id t) (title t) (shown_description t)
    (bool_decide (status t = complete))
    (if bool_decide (status t = complete)
     then lit "Mark as incomplete" else lit "Mark as complete").

(** What [Home] returns: the spinner while [loading], else the page. *)
Inductive Screen :=
| Spinner
| Page (completed pending : nat) (banner : option jsstring)
       (badge : option (nat * jsstring)) (no_tasks_yet : bool) (rows : list Row).

(** [{error && ( ... )}]: the banner is shown for a non-empty message. *)
Definition banner_of (e : option jsstring) : option jsstring :=
  match e with
  | Some m => if not_string m then None else Some m
  | None => None
  end.

Definition render (st : Home.State) : Screen :=
  if Home.loading st then Spinner
  else
    let tasks := Home.tasks st in
    Page (completed_count tasks) (pending_count tasks) (banner_of (Home.error st))
      (task_badge tasks) (length tasks =? 0)%nat (row <$> tasks).

End HomeView.

Module HomeSession.

(** A call of the API client that has been issued and has not settled. *)
Inductive Call :=
| FetchTasksCall
| CreateCall
| ToggleCall (task_id : Z)
| DeleteCall (task_id : Z).

(** How such a call settles, by the type of what it reads. *)
Inductive Reply :=
| TasksReply (o : FetchOutcome (list Task))
| TaskReply (o : FetchOutcome Task)
| EmptyReply (o : FetchOutcome unit).

(** The continuation of the handler that issued the call; [None] when the
    reply is not of the call's type. *)
Definition settle (c : Call) (r : Reply) (st : Home.State) : option Home.State :=
  match c, r with
  | FetchTasksCall, TasksReply o => Some (Home.fetchTasks_settle o st)
  | CreateCall, TaskReply o => Some (Home.handleSubmit_settle o st)
  | ToggleCall task_id, TaskReply o => Some (Home.handleToggleStatus_settle task_id o st)
  | DeleteCall task_id, EmptyReply o => Some (Home.handleDelete_settle task_id o st)
  | _, _ => None
  end.

(** Whether the awaited wrapper returns on this reply. *)
Definition succeeded (r : Reply) : bool :=
  match r with
  | TasksReply o => bool_decide (is_Some (returned o))
  | TaskReply o => bool_decide (is_Some (returned o))
  | EmptyReply o => accepted o
  end.

Record Session := mkSession {
  page : Home.State;
  pending : list Call;
  requests : list Request
}.

(** The page does not hold back its handlers while calls are pending, and
    the calls settle in any order.  (While [loading] only the spinner is
    rendered, so that nothing can be clicked then; the events do not rely
    on it.) *)
Inductive Event :=
| Mount                                   (* the effect: fetchTasks() *)
| Input (name : Home.Field) (value : jsstring)
| SubmitForm
| ClickToggle (task_id : Z)
| ClickDelete (task_id : Z)
| Settled (k : nat) (r : Reply).          (* the k-th pending call settles *)

Definition initial : Session := mkSession Home.initial [] [].

Definition issue (c : Call) (b : Home.State * option Request) (s : Session) : Session :=
  match b with
  | (st', Some req) => mkSession st' (pending s ++ [c]) (requests s ++ [req])
  | (st', None) => mkSession st' (pending s) (requests s)
  end.

Definition step (e : Event) (s : Session) : option Session :=
  match e with
  | Mount => Some (issue FetchTasksCall (Home.fetchTasks_begin (page s)) s)
  | Input name value =>
      Some (mkSession (Home.handleInputChange name value (page s)) (pending s) (requests s))
  | SubmitForm => Some (issue CreateCall (Home.handleSubmit_begin (page s)) s)
  | ClickToggle task_id =>
      Some (issue (ToggleCall task_id) (Home.handleToggleStatus_begin task_id (page s)) s)
  | ClickDelete task_id =>
      Some (issue (DeleteCall task_id) (Home.handleDelete_begin task_id (page s)) s)
  | Settled k r =>
      c ← pending s !! k;
      st' ← settle c r (page s);
      Some (mkSession st' (delete k (pending s)) (requests s))
  end.

Fixpoint run (es : list Event) (s : Session) : option Session :=
  match es with
  | [] => Some s
  | e :: es' =>
      match step e s with
      | Some s' => run es' s'
      | None => None
      end
  end.

(** The tasks a reply delivers when its wrapper returns. *)
Definition delivered (r : Reply) : list Task :=
  match r with
  | TasksReply o => default [] (returned o)
  | TaskReply o => option_list (returned o)
  | EmptyReply _ => []
  end.

(** What the replies must satisfy for the cards' keys to stay distinct:
    a loaded list has distinct ids, a created task has an id that is not in
    the list, and a toggled task has the id that was asked for. *)
Definition respects_keys (c : Call) (r : Reply) (st : Home.State) : Prop :=
  match c, r with
  | FetchTasksCall, TasksReply o => forall l, returned o = Some l -> NoDup (id <$> l)
  | CreateCall, TaskReply o => forall t, returned o = Some t -> id t ∉ id <$> Home.tasks st
  | ToggleCall task_id, TaskReply o => forall t, returned o = Some t -> id t = task_id
  | _, _ => True
  end.

(** All tasks delivered in a sequence of events. *)
Definition received (es : list Event) : list Task :=
  e ← es; match e with Settled _ r => delivered r | _ => [] end.

End HomeSession.

(** ** components/ChatInterface.tsx, continued: the shape of a transcript *)

Module ChatView.

Definition other (r : Chat.Role) : Chat.Role :=
  match r with Chat.user => Chat.assistant | Chat.assistant => Chat.user end.

(** The roles of the messages take turns, beginning with [expect]. *)
Fixpoint alternates (expect : Chat.Role) (l : list Chat.Message) : bool :=
  match l with
  | [] => true
  | m :: rest => bool_decide (Chat.role m = expect) && alternates (other expect) rest
  end.

Definition user_messages (l : list Chat.Message) : list Chat.Message :=
  filter (fun m => Chat.role m = Chat.user) l.

(** [{isLoading && ( ... Thinking... )}], shown under a non-empty
    transcript only. *)
Definition thinking_shown (st : Chat.State) : bool :=
  negb (length (Chat.messages st) =? 0)%nat && Chat.isLoading st.

(** The shape every session of the panel keeps: the roles take turns, an
    odd number of messages means a call is in flight, and then exactly
    one. *)
Definition well_formed_session (s : Chat.Session) : Prop :=
  alternates Chat.user (Chat.messages (Chat.view s)) = true
  /\ Chat.isLoading (Chat.view s) = Nat.odd (length (Chat.messages (Chat.view s)))
  /\ length (Chat.in_flight s) = (if Chat.isLoading (Chat.view s) then 1 else 0)%nat.

End ChatView.

(** ** Sample data *)

Module Samples.

Definition task (n : Z) (name : string) (st : Status) : Task :=
  mkTask n (lit name) None st (lit "mock-user-uuid")
    (lit "2024-01-01T00:00:00") (lit "2024-01-01T00:00:00").

(** The task page with a title of three spaces typed into the form. *)
Definition blank_form : Home.State :=
  Home.mkState [task 1 "Buy milk" incomplete]
    (mkTaskCreate (lit "   ") (Some (lit ""))) false None.

(** The task page with a proper title typed into the form. *)
Definition filled_form : Home.State :=
  Home.mkState [task 1 "Buy milk" incomplete]
    (mkTaskCreate (lit " Call mom ") (Some (lit ""))) false None.

(** A task list in which two entries carry the id 1. *)
Definition twins : list Task :=
  [task 1 "Buy milk" incomplete; task 1 "Buy bread" incomplete;
   task 2 "Call mom" incomplete].

Definition three_tasks : list Task :=
  [task 1 "Buy milk" incomplete; task 2 "Call mom" complete;
   task 3 "Pay rent" incomplete].

Definition t1 : Chat.Clock := Chat.mkClock 1700000000000 1700000000000.
Definition t2 : Chat.Clock := Chat.mkClock 1700000000450 1700000000451.
Definition t3 : Chat.Clock := Chat.mkClock 1700000000900 1700000000900.

Definition host_user : option jsstring := Some (lit "mock-user-uuid").

Definition ok_reply (s : string) : FetchOutcome ChatReply :=
  HttpResponse true 200 (Some (mkChatReply (lit s))).

(** The chat panel while the call for a first utterance is in flight, with
    a second utterance in the input field. *)
Definition busy_panel : Chat.State :=
  Chat.mkState (lit "Show my tasks")
    [Chat.new_message t1 (lit "Add a task to buy milk") Chat.user] true.

(** The chat panel at rest with an utterance typed in. *)
Definition ready_panel : Chat.State :=
  Chat.mkState (lit "Show my tasks") [] false.

(** A second utterance is typed and submitted while the call for the first
    one is in flight; then that call settles. *)
Definition overlapping_submissions : list Chat.Event :=
  [Chat.Change (lit "Add a task to buy milk"); Chat.Submit t1;
   Chat.Change (lit "Show my tasks"); Chat.Submit t2;
   Chat.Settle t3 (ok_reply "Task 'buy milk' created successfully")].

(** The snapshot of the specification's precedence example: "Buy milk"
    has id 7 and another task is titled "7". *)
Definition milk_snapshot : Interpreter.TaskSnapshot :=
  [Interpreter.mkTaskRecord 7 "Buy milk" None incomplete;
   Interpreter.mkTaskRecord 8 "7" None incomplete].


End Samples.

Module MoreSamples.

Definition created : Task := Samples.task 4 "Walk the dog" incomplete.
Definition toggled : Task := Samples.task 2 "Call mom" incomplete.

(** The page with three tasks, a title typed in and an error shown. *)
Definition page_with_error : Home.State :=
  Home.mkState Samples.three_tasks
    (mkTaskCreate (lit "Walk the dog") (Some (lit ""))) false
    (Some (lit "Title is required")).

(** That page while the call of its submitted form is pending. *)
Definition creating : HomeSession.Session :=
  HomeSession.mkSession page_with_error [HomeSession.CreateCall]
    [createTask_request (Home.newTask page_with_error)].

Definition created_reply : HomeSession.Reply :=
  HomeSession.TaskReply (HttpResponse true 201 (Some created)).

Definition not_found : FetchOutcome Task := HttpResponse false 404 None.

(** Load three tasks, add a fourth, delete the first. *)
Definition a_visit : list HomeSession.Event :=
  [HomeSession.Mount;
   HomeSession.Settled 0
     (HomeSession.TasksReply (HttpResponse true 200 (Some Samples.three_tasks)));
   HomeSession.Input Home.title_field (lit "Walk the dog");
   HomeSession.SubmitForm;
   HomeSession.Settled 0 created_reply;
   HomeSession.ClickDelete 1;
   HomeSession.Settled 0 (HomeSession.EmptyReply (HttpResponse true 204 None))].

(** One answered turn of the chat and a second one under way. *)
Definition a_chat : list Chat.Event :=
  [Chat.Change (lit "Show my tasks"); Chat.Submit Samples.t1;
   Chat.Settle Samples.t2 (Samples.ok_reply "You have 3 tasks");
   Chat.Change (lit "Mark task #1 as complete"); Chat.Submit Samples.t3].

(** The session [creating] once its call has returned [created]. *)
Definition after_create : HomeSession.Session :=
  HomeSession.mkSession
    (Home.mkState (created :: Samples.three_tasks) Home.empty_form false None)
    [] [createTask_request (Home.newTask page_with_error)].

End MoreSamples.

(** * Properties *)

(** ** JavaScript strings *)

Lemma not_string_true (s : jsstring) : not_string s = true <-> s = [].
Proof. destruct s; simpl; split; congruence. Qed.

Lemma not_string_false (s : jsstring) : not_string s = false <-> s <> [].
Proof. destruct s; simpl; split; congruence. Qed.

Lemma trimStart_blank (s : jsstring) :
  trimStart s = [] <-> Forall (fun c => is_white_space c = true) s.
Proof.
  induction s as [|c r IH]; simpl.
  - split; [constructor | reflexivity].
  - destruct (is_white_space c) eqn:Hc.
    + rewrite IH. split; [by constructor | by inversion 1].
    + split; [discriminate | inversion 1; congruence].
Qed.

Lemma trimStart_head (s : jsstring) c r :
  trimStart s = c :: r -> is_white_space c = false.
Proof.
  induction s as [|d s IH]; simpl; [discriminate|].
  destruct (is_white_space d) eqn:Hd; [exact IH|].
  intros [= <- <-]. exact Hd.
Qed.

(** [trim] yields the empty string exactly on the strings made of white
    space only. *)
Lemma trim_blank (s : jsstring) :
  trim s = [] <-> Forall (fun c => is_white_space c = true) s.
Proof.
  rewrite <- trimStart_blank. unfold trim, trimEnd. split.
  - intros H. apply (f_equal reverse) in H.
    rewrite reverse_involutive, reverse_nil in H.
    apply trimStart_blank, Forall_reverse in H.
    destruct (trimStart s) as [|c r] eqn:E; [reflexivity|].
    apply trimStart_head in E. rewrite reverse_involutive in H.
    inversion H; simpl in *; congruence.
  - intros ->. reflexivity.
Qed.

(** ** The task page *)

Section HomeFacts.

Import Home.

Lemma replace_task_length task_id updatedTask prev :
  length (replace_task task_id updatedTask prev) = length prev.
Proof. unfold replace_task. apply length_fmap. Qed.

Lemma replace_task_lookup task_id updatedTask prev i :
  replace_task task_id updatedTask prev !! i
  = (fun t => if decide (id t = task_id) then updatedTask else t) <$> prev !! i.
Proof. unfold replace_task. apply list_lookup_fmap. Qed.

Lemma replace_task_absent task_id updatedTask prev :
  task_id ∉ id <$> prev -> replace_task task_id updatedTask prev = prev.
Proof.
  unfold replace_task. induction prev as [|t prev IH]; intros Hn; [reflexivity|].
  rewrite fmap_cons in Hn. apply not_elem_of_cons in Hn as [Hne Hn].
  rewrite fmap_cons, IH by exact Hn. by rewrite decide_False.
Qed.

Lemma changed_positions_same l : changed_positions l l = 0%nat.
Proof.
  unfold changed_positions. induction l as [|t l IH]; [reflexivity|].
  simpl. rewrite filter_cons_False by (simpl; tauto). exact IH.
Qed.

Lemma changed_positions_cons t u prev next :
  changed_positions (t :: prev) (u :: next)
  = ((if decide (t = u) then 0 else 1) + changed_positions prev next)%nat.
Proof.
  unfold changed_positions. simpl. rewrite filter_cons. simpl.
  destruct (decide (t = u)) as [->|Hne].
  - by rewrite decide_False by tauto.
  - by rewrite decide_True by done.
Qed.

Lemma replace_task_changes_one task_id updatedTask prev :
  NoDup (id <$> prev) ->
  (changed_positions prev (replace_task task_id updatedTask prev) <= 1)%nat.
Proof.
  induction prev as [|t prev IH]; intros Hnd.
  - unfold changed_positions. simpl. lia.
  - rewrite fmap_cons in Hnd. apply NoDup_cons in Hnd as [Hnotin Hnd].
    change (replace_task task_id updatedTask (t :: prev))
      with ((if decide (id t = task_id) then updatedTask else t)
              :: replace_task task_id updatedTask prev).
    rewrite changed_positions_cons.
    destruct (decide (id t = task_id)) as [He|Hne].
    + rewrite replace_task_absent by (by rewrite <- He).
      rewrite changed_positions_same. case_decide; lia.
    + rewrite decide_True by done. specialize (IH Hnd). lia.
Qed.

End HomeFacts.

(** C1. A submission of the add-task form whose title is empty after
    trimming sets the error shown above the form to "Title is required" and
    issues no request; and whenever the handler does issue a request, it is
    the [createTask] call for the form's content, whose title is not empty
    after trimming. *)
Theorem handleSubmit_rejects_blank_title (st : Home.State) :
  (trim (tc_title (Home.newTask st)) = [] ->
     Home.handleSubmit_begin st
       = (Home.set_error (Some (lit "Title is required")) st, None)
     /\ Home.error (Home.handleSubmit_begin st).1 = Some (lit "Title is required")
     /\ Home.tasks (Home.handleSubmit_begin st).1 = Home.tasks st)
  /\ (forall req, (Home.handleSubmit_begin st).2 = Some req ->
        req = createTask_request (Home.newTask st)
        /\ trim (tc_title (Home.newTask st)) <> []).
Proof.
  unfold Home.handleSubmit_begin. split.
  - intros ->. simpl. auto.
  - intros req. destruct (not_string _) eqn:Hb; simpl; [discriminate|].
    intros [= <-]. split; [reflexivity|]. by apply not_string_false.
Qed.

Lemma handleSubmit_rejects_blank_title_witness :
  trim (tc_title (Home.newTask Samples.blank_form)) = []
  /\ (Home.handleSubmit_begin Samples.blank_form).2 = None
  /\ Home.error (Home.handleSubmit_begin Samples.blank_form).1
     = Some (lit "Title is required")
  /\ (Home.handleSubmit_begin Samples.filled_form).2
     = Some (createTask_request (Home.newTask Samples.filled_form)).
Proof.
  assert (Hb : trim (tc_title (Home.newTask Samples.blank_form)) = [])
    by reflexivity.
  destruct (proj1 (handleSubmit_rejects_blank_title Samples.blank_form) Hb)
    as (Hret & Herr & _).
  split; [exact Hb|]. split; [by rewrite Hret|]. split; [exact Herr|].
  destruct (Home.handleSubmit_begin Samples.filled_form) as [st' [req|]] eqn:E.
  - simpl. f_equal.
    apply (proj2 (handleSubmit_rejects_blank_title Samples.filled_form)).
    by rewrite E.
  - vm_compute in E. discriminate.
Defined.

Lemma deleteTask_succeeds (o : FetchOutcome unit) :
  (exists u, deleteTask_result o = Return u)
  <-> exists code js, o = HttpResponse true code js.
Proof.
  split.
  - intros [u Hu]. destruct o as [|[] code js]; simpl in Hu; try discriminate.
    by exists code, js.
  - intros (code & js & ->). by exists tt.
Qed.

(** C8 as the claim states it fails: in a list where two entries carry the
    id 1, toggling 1 replaces both of them. *)
Lemma toggle_replaces_both_twins :
  let updatedTask := Samples.task 1 "Buy milk" complete in
  let st := Home.mkState Samples.twins Home.empty_form false None in
  let st' := Home.handleToggleStatus_settle 1
               (HttpResponse true 200 (Some updatedTask)) st in
  Home.tasks st'
    = [updatedTask; updatedTask; Samples.task 2 "Call mom" incomplete]
  /\ Home.changed_positions (Home.tasks st) (Home.tasks st') = 2%nat
  /\ ~ (Home.changed_positions (Home.tasks st) (Home.tasks st') <= 1)%nat.
Proof.
  cbv zeta.
  assert (H : Home.changed_positions Samples.twins
            (Home.tasks (Home.handleToggleStatus_settle 1
               (HttpResponse true 200 (Some (Samples.task 1 "Buy milk" complete)))
               (Home.mkState Samples.twins Home.empty_form false None)))
          = 2%nat) by (vm_compute; reflexivity).
  split; [vm_compute; reflexivity|]. split; [exact H|].
  change (Home.tasks (Home.mkState Samples.twins Home.empty_form false None))
    with Samples.twins.
  rewrite H. lia.
Qed.

(** C8, amended. When the toggle call returns, every entry whose id is the
    given one is replaced by the returned task and every other entry stays
    as and where it is, so that length and order are kept; in a list whose
    ids are pairwise distinct at most one position changes.  When the call
    fails the list is left as it is. *)
Theorem toggle_replaces_matching_entries (task_id : Z) (o : FetchOutcome Task)
    (st : Home.State) :
  let st' := Home.handleToggleStatus_settle task_id o st in
  match toggleTaskStatus_result o with
  | Return updatedTask =>
      length (Home.tasks st') = length (Home.tasks st)
      /\ (forall i t, Home.tasks st !! i = Some t -> id t <> task_id ->
            Home.tasks st' !! i = Some t)
      /\ (forall i t, Home.tasks st !! i = Some t -> id t = task_id ->
            Home.tasks st' !! i = Some updatedTask)
      /\ (NoDup (id <$> Home.tasks st) ->
            (Home.changed_positions (Home.tasks st) (Home.tasks st') <= 1)%nat)
  | Throw _ => Home.tasks st' = Home.tasks st
  end.
Proof.
  unfold Home.handleToggleStatus_settle.
  destruct (toggleTaskStatus_result o) as [updatedTask|e]; simpl; [|reflexivity].
  split; [apply replace_task_length|].
  split; [|split].
  - intros i t Hi Hne. rewrite replace_task_lookup, Hi. simpl.
    by rewrite decide_False.
  - intros i t Hi He. rewrite replace_task_lookup, Hi. simpl.
    by rewrite decide_True.
  - apply replace_task_changes_one.
Qed.

Lemma toggle_replaces_matching_entries_witness :
  let updatedTask := Samples.task 2 "Call mom" incomplete in
  let st := Home.mkState Samples.three_tasks Home.empty_form false None in
  let st' := Home.handleToggleStatus_settle 2
               (HttpResponse true 200 (Some updatedTask)) st in
  NoDup (id <$> Samples.three_tasks)
  /\ (Home.changed_positions Samples.three_tasks (Home.tasks st') <= 1)%nat.
Proof.
  cbv zeta.
  assert (Hnd : NoDup (id <$> Samples.three_tasks)).
  { apply (bool_decide_unpack _). vm_compute. reflexivity. }
  split; [exact Hnd|].
  pose proof (toggle_replaces_matching_entries 2
    (HttpResponse true 200 (Some (Samples.task 2 "Call mom" incomplete)))
    (Home.mkState Samples.three_tasks Home.empty_form false None)) as H.
  simpl in H. destruct H as (_ & _ & _ & H). exact (H Hnd).
Defined.

(** C9. When the delete call returns, the list becomes the previous list
    without the tasks whose id is the given one: the remaining tasks keep
    their relative order, none of them has that id, and every task with
    another id is still there.  When the call fails the list is left as it
    is. *)
Theorem delete_removes_matching_tasks (task_id : Z) (o : FetchOutcome unit)
    (st : Home.State) :
  let st' := Home.handleDelete_settle task_id o st in
  match deleteTask_result o with
  | Return _ =>
      Home.tasks st' = filter (fun t => id t <> task_id) (Home.tasks st)
      /\ Home.tasks st' `sublist_of` Home.tasks st
      /\ (forall t, t ∈ Home.tasks st' <-> t ∈ Home.tasks st /\ id t <> task_id)
  | Throw _ => Home.tasks st' = Home.tasks st
  end.
Proof.
  unfold Home.handleDelete_settle.
  destruct (deleteTask_result o) as [u|e]; simpl; [|reflexivity].
  unfold Home.remove_task. split; [reflexivity|]. split.
  - apply sublist_filter.
  - intros t. rewrite list_elem_of_filter. tauto.
Qed.

(** ** The chat panel *)

Section ChatFacts.

Import Chat.

Variable userId : option jsstring.

Lemma handleSubmit_begin_blocked now st :
  submit_blocked st = true -> handleSubmit_begin userId now st = (st, None).
Proof. unfold handleSubmit_begin. by intros ->. Qed.

Lemma handleSubmit_begin_accepted now st :
  submit_blocked st = false ->
  handleSubmit_begin userId now st
  = (mkState (lit "") (messages st ++ [new_message now (inputMessage st) user]) true,
     Some (sendMessage_request (inputMessage st) userId)).
Proof. unfold handleSubmit_begin. by intros ->. Qed.

(** The message the continuation of [handleSubmit] adds. *)
Lemma handleSubmit_settle_messages now o st :
  messages (handleSubmit_settle now o st)
  = messages st
    ++ [new_message now
          (match sendMessage_result o with
           | Return data => response data
           | Throw _ => apology
           end) assistant].
Proof. unfold handleSubmit_settle. by destruct (sendMessage_result o). Qed.

Lemma handleSubmit_settle_isLoading now o st :
  isLoading (handleSubmit_settle now o st) = false.
Proof. unfold handleSubmit_settle. by destruct (sendMessage_result o). Qed.

Lemma step_messages e s s' :
  step userId e s = Some s' ->
  messages (view s') = messages (view s)
  \/ exists m, messages (view s') = messages (view s) ++ [m].
Proof.
  destruct e as [text|now|now o]; simpl.
  - intros [= <-]. by left.
  - destruct (submit_blocked (view s)) eqn:Hb.
    + rewrite handleSubmit_begin_blocked by done. intros [= <-]. by left.
    + rewrite handleSubmit_begin_accepted by done. intros [= <-]. right. eauto.
  - destruct (in_flight s); [discriminate|]. intros [= <-]. right. simpl.
    rewrite handleSubmit_settle_messages. eauto.
Qed.

Lemma run_messages_prefix es s s' :
  run userId es s = Some s' -> messages (view s) `prefix_of` messages (view s').
Proof.
  revert s. induction es as [|e es IH]; intros s; simpl.
  - by intros [= <-].
  - destruct (step userId e s) as [s1|] eqn:E; [|discriminate].
    intros Hrun. apply IH in Hrun.
    destruct (step_messages _ _ _ E) as [Heq|[m Heq]]; rewrite Heq in Hrun.
    + done.
    + etrans; [|exact Hrun]. by apply prefix_app_r.
Qed.

(** Between events, exactly the calls that hold [isLoading] are in flight. *)
Lemma step_in_flight e s s' :
  step userId e s = Some s' ->
  length (in_flight s) = (if isLoading (view s) then 1 else 0)%nat ->
  length (in_flight s') = (if isLoading (view s') then 1 else 0)%nat.
Proof.
  destruct e as [text|now|now o]; simpl.
  - intros [= <-]. done.
  - destruct (submit_blocked (view s)) eqn:Hb.
    + rewrite handleSubmit_begin_blocked by done. intros [= <-]. done.
    + rewrite handleSubmit_begin_accepted by done. intros [= <-]. simpl.
      unfold submit_blocked in Hb. apply orb_false_elim in Hb as [_ ->].
      rewrite length_app. simpl. lia.
  - destruct (in_flight s) as [|r rest]; [discriminate|]. intros [= <-]. simpl.
    rewrite handleSubmit_settle_isLoading. destruct (isLoading (view s)); lia.
Qed.

Lemma run_in_flight es s s' :
  run userId es s = Some s' ->
  length (in_flight s) = (if isLoading (view s) then 1 else 0)%nat ->
  length (in_flight s') = (if isLoading (view s') then 1 else 0)%nat.
Proof.
  revert s. induction es as [|e es IH]; intros s; simpl.
  - by intros [= <-].
  - destruct (step userId e s) as [s1|] eqn:E; [|discriminate].
    intros Hrun Hs. eapply IH; [exact Hrun|]. eapply step_in_flight; eauto.
Qed.

Lemma reachable_in_flight es s :
  run userId es initial = Some s ->
  length (in_flight s) = (if isLoading (view s) then 1 else 0)%nat.
Proof. intros H. by apply (run_in_flight _ _ _ H). Qed.

End ChatFacts.

(** C3 as the claim states it fails: an utterance handed to [handleSubmit]
    while a call is in flight gets no response at all, whatever the
    reply to that call is. *)
Lemma submission_in_flight_gets_no_response :
  let st' := Chat.turn Samples.host_user Samples.t2 Samples.t3
               (Samples.ok_reply "You have 1 task") Samples.busy_panel in
  st' = Samples.busy_panel
  /\ Chat.new_responses Samples.busy_panel st' = []
  /\ length (Chat.new_responses Samples.busy_panel st') <> 1%nat.
Proof. cbv zeta. split; [reflexivity|]. split; [reflexivity|]. discriminate. Qed.

(** C3, amended. A submission that passes the guard of [handleSubmit] (the
    input is not blank and no call is in flight) adds the user's message
    and then exactly one response: the reply's text when the call returns,
    the fixed apology when it throws; the continuation adds that one
    response whatever the state has become in between.  A submission that
    does not pass the guard changes nothing and gets no response. *)
Theorem accepted_submission_gets_one_response (userId : option jsstring)
    (t_submit t_settle : Chat.Clock) (o : FetchOutcome ChatReply) (st : Chat.State) :
  let reply :=
    Chat.new_message t_settle
      (match sendMessage_result o with
       | Return data => response data
       | Throw _ => Chat.apology
       end) Chat.assistant in
  (Chat.submit_blocked st = false ->
     Chat.messages (Chat.turn userId t_submit t_settle o st)
       = Chat.messages st
         ++ [Chat.new_message t_submit (Chat.inputMessage st) Chat.user; reply]
     /\ Chat.new_responses st (Chat.turn userId t_submit t_settle o st) = [reply])
  /\ (Chat.submit_blocked st = true ->
        Chat.turn userId t_submit t_settle o st = st
        /\ Chat.new_responses st (Chat.turn userId t_submit t_settle o st) = [])
  /\ (forall st2, Chat.messages (Chat.handleSubmit_settle t_settle o st2)
                  = Chat.messages st2 ++ [reply]).
Proof.
  cbv zeta. split; [|split].
  - intros Hb. unfold Chat.turn. rewrite handleSubmit_begin_accepted by done.
    assert (Hm : Chat.messages
              (Chat.handleSubmit_settle t_settle o
                 (Chat.mkState (lit "")
                    (Chat.messages st
                     ++ [Chat.new_message t_submit (Chat.inputMessage st) Chat.user])
                    true))
            = Chat.messages st
              ++ [Chat.new_message t_submit (Chat.inputMessage st) Chat.user;
                  Chat.new_message t_settle
                    (match sendMessage_result o with
                     | Return data => response data
                     | Throw _ => Chat.apology
                     end) Chat.assistant]).
    { rewrite handleSubmit_settle_messages. simpl. by rewrite <- app_assoc. }
    split; [exact Hm|].
    unfold Chat.new_responses. rewrite Hm, drop_app_length. reflexivity.
  - intros Hb. unfold Chat.turn. rewrite handleSubmit_begin_blocked by done.
    split; [reflexivity|].
    unfold Chat.new_responses. by rewrite drop_all.
  - intros st2. apply handleSubmit_settle_messages.
Qed.

Lemma accepted_submission_gets_one_response_witness :
  Chat.submit_blocked Samples.ready_panel = false
  /\ length (Chat.new_responses Samples.ready_panel
               (Chat.turn Samples.host_user Samples.t1 Samples.t2
                  NetworkFailure Samples.ready_panel)) = 1%nat
  /\ Chat.submit_blocked Samples.busy_panel = true
  /\ Chat.turn Samples.host_user Samples.t2 Samples.t3 NetworkFailure
       Samples.busy_panel = Samples.busy_panel.
Proof.
  pose proof (accepted_submission_gets_one_response Samples.host_user
                Samples.t1 Samples.t2 NetworkFailure Samples.ready_panel) as Hr.
  pose proof (accepted_submission_gets_one_response Samples.host_user
                Samples.t2 Samples.t3 NetworkFailure Samples.busy_panel) as Hb.
  cbv zeta in Hr, Hb.
  destruct Hr as (Hr & _ & _). destruct Hb as (_ & Hb & _).
  assert (H1 : Chat.submit_blocked Samples.ready_panel = false) by reflexivity.
  assert (H2 : Chat.submit_blocked Samples.busy_panel = true) by reflexivity.
  destruct (Hr H1) as [_ Hone]. destruct (Hb H2) as [Hsame _].
  split; [exact H1|]. split; [by rewrite Hone|]. split; [exact H2 | exact Hsame].
Defined.

(** C4 as the claim states it fails: the utterance submitted while the
    first call is in flight is never sent, not even once that call has
    settled and nothing is in flight any more; it is still sitting in the
    input field. *)
Lemma submission_in_flight_is_not_queued :
  exists s,
    Chat.run Samples.host_user Samples.overlapping_submissions Chat.initial = Some s
    /\ Chat.in_flight s = []
    /\ Chat.isLoading (Chat.view s) = false
    /\ Chat.submitted_in_flight Samples.host_user Samples.overlapping_submissions
         Chat.initial = [lit "Show my tasks"]
    /\ (Chat.message_of <$> Chat.sent s) = [Some (lit "Add a task to buy milk")]
    /\ (Some (lit "Show my tasks") ∉ Chat.message_of <$> Chat.sent s)
    /\ (Chat.content <$> Chat.messages (Chat.view s))
       = [lit "Add a task to buy milk"; lit "Task 'buy milk' created successfully"]
    /\ Chat.inputMessage (Chat.view s) = lit "Show my tasks".
Proof.
  eexists. split; [vm_compute; reflexivity|]. simpl.
  repeat (split; [reflexivity|]). split; [|split; reflexivity].
  intros H. apply list_elem_of_singleton in H. discriminate H.
Qed.

(** C4, amended. In every state the panel reaches, at most one call is in
    flight; a submission made while a call is in flight leaves the state as
    it is and issues no request; and when the call settles no further
    request is issued, so nothing has been queued. *)
Theorem one_call_at_a_time_nothing_queued (userId : option jsstring)
    (es : list Chat.Event) (s : Chat.Session) :
  Chat.run userId es Chat.initial = Some s ->
  (length (Chat.in_flight s) <= 1)%nat
  /\ (Chat.in_flight s <> [] ->
        forall now, Chat.step userId (Chat.Submit now) s = Some s)
  /\ (forall now o s2, Chat.step userId (Chat.Settle now o) s = Some s2 ->
        Chat.in_flight s2 = [] /\ Chat.sent s2 = Chat.sent s
        /\ Chat.isLoading (Chat.view s2) = false).
Proof.
  intros Hrun. pose proof (reachable_in_flight _ _ _ Hrun) as Hinv.
  split; [|split].
  - rewrite Hinv. destruct (Chat.isLoading _); lia.
  - intros Hne now. simpl.
    assert (Hl : Chat.isLoading (Chat.view s) = true).
    { destruct (Chat.isLoading (Chat.view s)); [reflexivity|].
      destruct (Chat.in_flight s); [done | discriminate Hinv]. }
    rewrite handleSubmit_begin_blocked.
    + by destruct s.
    + unfold Chat.submit_blocked. rewrite Hl. apply orb_true_r.
  - intros now o s2. simpl.
    destruct (Chat.in_flight s) as [|r rest] eqn:E; [discriminate|].
    intros [= <-]. simpl. rewrite handleSubmit_settle_isLoading.
    split; [|done]. destruct rest; [reflexivity|].
    destruct (Chat.isLoading (Chat.view s)); discriminate Hinv.
Qed.

Lemma one_call_at_a_time_nothing_queued_witness :
  let s := Chat.mkSession Samples.busy_panel
             [sendMessage_request (lit "Add a task to buy milk") Samples.host_user]
             [sendMessage_request (lit "Add a task to buy milk") Samples.host_user] in
  Chat.run Samples.host_user
    [Chat.Change (lit "Add a task to buy milk"); Chat.Submit Samples.t1;
     Chat.Change (lit "Show my tasks")] Chat.initial = Some s
  /\ (length (Chat.in_flight s) <= 1)%nat
  /\ Chat.step Samples.host_user (Chat.Submit Samples.t2) s = Some s.
Proof.
  cbv zeta.
  assert (Hrun : Chat.run Samples.host_user
    [Chat.Change (lit "Add a task to buy milk"); Chat.Submit Samples.t1;
     Chat.Change (lit "Show my tasks")] Chat.initial
    = Some (Chat.mkSession Samples.busy_panel
             [sendMessage_request (lit "Add a task to buy milk") Samples.host_user]
             [sendMessage_request (lit "Add a task to buy milk") Samples.host_user]))
    by (vm_compute; reflexivity).
  destruct (one_call_at_a_time_nothing_queued _ _ _ Hrun) as (Hone & Hsub & _).
  split; [exact Hrun|]. split; [exact Hone|].
  apply Hsub. discriminate.
Defined.

(** C5 as the claim states it fails: a panel to which the host attached no
    user id forwards the id "mock-user-uuid", and its request is the same
    as that of a panel whose host attached that id; the empty string is
    replaced likewise. *)
Lemma missing_user_id_is_replaced_by_mock :
  (Chat.handleSubmit_begin None Samples.t1 Samples.ready_panel).2
    = Some (mkRequest ApiChat POST json_headers
              (ChatBody (lit "Show my tasks") (lit "mock-user-uuid")))
  /\ Some (forwarded_user None) <> None
  /\ (None : option jsstring) <> Some (lit "mock-user-uuid")
  /\ (Chat.handleSubmit_begin None Samples.t1 Samples.ready_panel).2
     = (Chat.handleSubmit_begin (Some (lit "mock-user-uuid")) Samples.t1
          Samples.ready_panel).2
  /\ forwarded_user (Some (lit "")) = lit "mock-user-uuid"
  /\ lit "" <> lit "mock-user-uuid".
Proof.
  split; [reflexivity|]. split; [discriminate|]. split; [discriminate|].
  split; [reflexivity|]. split; [reflexivity | discriminate].
Qed.

(** C5, amended. The request of a chat turn carries the typed message
    and, as user id, the one the host attached to the panel whenever that
    is a non-empty string; when the host attached none, or the empty
    string, it carries "mock-user-uuid".  Panels with different non-empty
    user ids forward different ids. *)
Theorem forwarded_user_is_attached_or_mock (userId : option jsstring)
    (now : Chat.Clock) (st : Chat.State) (req : Request) :
  (Chat.handleSubmit_begin userId now st).2 = Some req ->
  body req = ChatBody (Chat.inputMessage st) (forwarded_user userId)
  /\ (forall u, userId = Some u -> u <> [] -> forwarded_user userId = u)
  /\ (userId = None \/ userId = Some [] -> forwarded_user userId = mock_user)
  /\ (forall u v, u <> [] -> v <> [] ->
        forwarded_user (Some u) = forwarded_user (Some v) -> u = v).
Proof.
  intros Hreq. split; [|split; [|split]].
  - unfold Chat.handleSubmit_begin in Hreq.
    destruct (Chat.submit_blocked st); simpl in Hreq; [discriminate|].
    by injection Hreq as <-.
  - intros u -> Hu. simpl. by destruct u.
  - by intros [-> | ->].
  - intros u v Hu Hv. simpl. by destruct u, v.
Qed.

Lemma forwarded_user_is_attached_or_mock_witness :
  (Chat.handleSubmit_begin (Some (lit "alice")) Samples.t1 Samples.ready_panel).2
    = Some (sendMessage_request (lit "Show my tasks") (Some (lit "alice")))
  /\ forwarded_user (Some (lit "alice")) = lit "alice".
Proof.
  assert (H : (Chat.handleSubmit_begin (Some (lit "alice")) Samples.t1
                 Samples.ready_panel).2
              = Some (sendMessage_request (lit "Show my tasks") (Some (lit "alice"))))
    by reflexivity.
  split; [exact H|].
  destruct (forwarded_user_is_attached_or_mock _ _ _ _ H) as (_ & Hu & _).
  apply Hu; [reflexivity | discriminate].
Defined.

(** C10. Every event of the chat panel leaves the message list as it is or
    adds one message at its end, and over any sequence of events the list
    the panel started with remains the beginning of the list it ends
    with. *)
Theorem transcript_is_append_only (userId : option jsstring) :
  (forall e s s', Chat.step userId e s = Some s' ->
     Chat.messages (Chat.view s') = Chat.messages (Chat.view s)
     \/ exists m, Chat.messages (Chat.view s') = Chat.messages (Chat.view s) ++ [m])
  /\ (forall es s s', Chat.run userId es s = Some s' ->
        Chat.messages (Chat.view s) `prefix_of` Chat.messages (Chat.view s')).
Proof. split; [apply step_messages | apply run_messages_prefix]. Qed.

Lemma transcript_is_append_only_witness :
  exists s',
    Chat.run Samples.host_user
      [Chat.Submit Samples.t2; Chat.Settle Samples.t3 NetworkFailure;
       Chat.Change (lit "Show my tasks"); Chat.Submit Samples.t3]
      (Chat.mkSession Samples.busy_panel
         [sendMessage_request (lit "Add a task to buy milk") Samples.host_user] [])
    = Some s'
    /\ length (Chat.messages (Chat.view s')) = 3%nat
    /\ Chat.messages Samples.busy_panel `prefix_of` Chat.messages (Chat.view s').
Proof.
  eexists. split; [vm_compute; reflexivity|]. split; [reflexivity|].
  apply (proj2 (transcript_is_append_only Samples.host_user)
           [Chat.Submit Samples.t2; Chat.Settle Samples.t3 NetworkFailure;
            Chat.Change (lit "Show my tasks"); Chat.Submit Samples.t3]
           (Chat.mkSession Samples.busy_panel
              [sendMessage_request (lit "Add a task to buy milk") Samples.host_user] [])).
  vm_compute; reflexivity.
Defined.

(** ** The interpreter *)

Section InterpreterFacts.

Import Interpreter.

Lemma band_matches_none rules c utterance :
  (forall r t, r ∈ rules -> t ∈ triggers r -> trigger_matches t utterance = false) ->
  band_matches rules c utterance = [].
Proof.
  intros Hnone. apply elem_of_nil_inv. intros t Ht.
  unfold band_matches in Ht. apply list_elem_of_bind in Ht as (r & Ht & Hr).
  apply list_elem_of_filter in Ht as [Hm Ht].
  apply list_elem_of_filter in Hr as [_ Hr].
  rewrite (Hnone r t Hr Ht) in Hm. discriminate.
Qed.

Lemma first_band_none rules bands utterance :
  (forall r t, r ∈ rules -> t ∈ triggers r -> trigger_matches t utterance = false) ->
  first_band rules bands utterance = None.
Proof.
  intros Hnone. induction bands as [|c bands IH]; simpl; [reflexivity|].
  by rewrite band_matches_none.
Qed.



End InterpreterFacts.

(** C6. An utterance that matches no trigger phrase of any rule of the
    table is classified as Unclear. *)
Theorem no_trigger_means_unclear (rules : list Interpreter.Rule)
    (utterance : string) :
  (forall r t, r ∈ rules -> t ∈ Interpreter.triggers r ->
     Interpreter.trigger_matches t utterance = false) ->
  Interpreter.classify rules utterance = Interpreter.Unclear.
Proof.
  intros Hnone. unfold Interpreter.classify.
  by rewrite first_band_none.
Qed.

Lemma no_trigger_means_unclear_witness :
  (forall r t, r ∈ Interpreter.example_rules -> t ∈ Interpreter.triggers r ->
     Interpreter.trigger_matches t "hello there" = false)
  /\ Interpreter.classify Interpreter.example_rules "hello there"
     = Interpreter.Unclear.
Proof.
  assert (H : forall r t, r ∈ Interpreter.example_rules ->
                t ∈ Interpreter.triggers r ->
                Interpreter.trigger_matches t "hello there" = false).
  { intros r t Hr Ht. unfold Interpreter.example_rules in Hr.
    repeat (apply elem_of_cons in Hr as [->|Hr]);
      [| | | by apply elem_of_nil in Hr]; simpl in Ht;
      repeat (apply elem_of_cons in Ht as [->|Ht]);
      try (by apply elem_of_nil in Ht); vm_compute; reflexivity. }
  split; [exact H|]. exact (no_trigger_means_unclear _ _ H).
Defined.

Section ExplicitIdFacts.

Import Interpreter.







Lemma explicit_ids_from_cons (b : bool) (c : ascii) (r : text) :
  explicit_ids_from b (c :: r)
  = option_list (explicit_id_here b (c :: r)) ++ explicit_ids_from (is_word_char c) r.
Proof. reflexivity. Qed.









(** *** Decimal numerals *)







(** A text without digits names no id. *)
Lemma no_digit_no_explicit_id (b : bool) (s : text) :
  Forall (fun c => is_digit c = false) s -> explicit_ids_from b s = [].
Proof.
  intros Hs. revert b. induction Hs as [|c r Hc Hr IH]; intros b; [reflexivity|].
  rewrite explicit_ids_from_cons, IH, app_nil_r.
  assert (Hnum : forall t, Forall (fun c => is_digit c = false) t -> number_at t = None).
  { intros t Ht. unfold number_at. destruct Ht as [|x t Hx _]; [reflexivity|].
    simpl. by rewrite Hx. }
  unfold explicit_id_here. case_decide; [by rewrite Hnum|].
  destruct (_ && _); [|reflexivity].
  rewrite Hnum; [reflexivity|]. apply Forall_drop. by constructor.
Qed.

End ExplicitIdFacts.

Section ResolutionFacts.

Import Interpreter.

Variable extract_mention : string -> option ReferenceExpression.
Variable extract_several : list N -> string -> option ReferenceExpression.


(** The precedence example of the specification: the task titled "7" does
    not get in the way of the task with id 7. *)
Example precedence_of_explicit_id :
  resolve_reference extract_mention extract_several "mark #7 as done"
    Samples.milk_snapshot
  = Some (Resolved 7).
Proof. reflexivity. Qed.

(** Digits that are not part of an id token do not matter, nor does the
    word "task" before the token. *)
Example explicit_id_among_other_digits :
  resolve_reference extract_mention extract_several
    "Mark task #8 as complete before 5pm, I multitask 3 things"
    Samples.milk_snapshot
  = Some (Resolved 8).
Proof. reflexivity. Qed.

(** The ambiguity example of the specification. *)
Example ambiguous_title :
  resolve (TitleMention "call mom")
    [mkTaskRecord 3 "Call mom" None incomplete;
     mkTaskRecord 9 "Call mom" None incomplete]
  = Ambiguous [3; 9].
Proof. reflexivity. Qed.

Example classify_examples :
  classify example_rules "Show my tasks" = ListTasks
  /\ classify example_rules "Add a task to buy groceries" = AddTask
  /\ classify example_rules "Mark task #1 as complete" = CompleteTask
  /\ classify example_rules "mark task #1 as complete, I need to remember this"
     = CompleteTask.
Proof. repeat split; reflexivity. Qed.

End ResolutionFacts.



(** * Further properties of the sources *)

(** ** The API client *)

Lemma read_json_returned {A} (operation : string) (o : FetchOutcome A) (a : A) :
  read_json operation o = Return a <-> returned o = Some a.
Proof.
  destruct o as [|[] code [b|]]; simpl; split; intros H; try discriminate;
    by injection H as ->.
Qed.

Lemma read_json_not_returned {A} (operation : string) (o : FetchOutcome A) :
  returned o = None -> exists e, read_json operation o = Throw e.
Proof. destruct o as [|[] code [b|]]; simpl; intros H; try discriminate; eauto. Qed.

Lemma returned_shape {A} (o : FetchOutcome A) (a : A) :
  returned o = Some a <-> exists code, o = HttpResponse true code (Some a).
Proof.
  split.
  - destruct o as [|[] code [b|]]; simpl; intros H; try discriminate.
    injection H as ->. eauto.
  - by intros [code ->].
Qed.

(** The wrappers that read a JSON body ([getTasks], [createTask],
    [updateTask], [toggleTaskStatus], [sendMessage]) return a value exactly
    when the response is [ok] and its body parses to that value.  A
    response that is not [ok] makes them throw the error that names the
    operation and the status, even if its body would parse; an [ok]
    response whose body does not parse makes them throw as well. *)
Theorem json_wrappers_return_only_ok_bodies :
  (forall o l, getTasks_result o = Return l
     <-> exists code, o = HttpResponse true code (Some l))
  /\ (forall o t, createTask_result o = Return t
        <-> exists code, o = HttpResponse true code (Some t))
  /\ (forall o t, updateTask_result o = Return t
        <-> exists code, o = HttpResponse true code (Some t))
  /\ (forall o t, toggleTaskStatus_result o = Return t
        <-> exists code, o = HttpResponse true code (Some t))
  /\ (forall o d, sendMessage_result o = Return d
        <-> exists code, o = HttpResponse true code (Some d))
  /\ (forall code js,
        getTasks_result (HttpResponse false code js)
          = Throw (HttpError (lit "Failed to fetch tasks: ") code))
  /\ (forall code js,
        createTask_result (HttpResponse false code js)
          = Throw (HttpError (lit "Failed to create task: ") code)
        /\ updateTask_result (HttpResponse false code js)
          = Throw (HttpError (lit "Failed to update task: ") code)
        /\ toggleTaskStatus_result (HttpResponse false code js)
          = Throw (HttpError (lit "Failed to toggle task status: ") code))
  /\ (forall code js,
        sendMessage_result (HttpResponse false code js)
          = Throw (HttpError (lit "Failed to send message: ") code))
  /\ (forall code,
        createTask_result (HttpResponse true code None) = Throw JsonRejected
        /\ sendMessage_result (HttpResponse true code None) = Throw JsonRejected).
Proof.
  repeat split; try reflexivity;
    try (intros H; apply returned_shape; by eapply read_json_returned);
    try (intros H; eapply read_json_returned; by apply returned_shape).
Qed.

(** [deleteTask] returns exactly when the response is [ok]; it does not
    read the body, so that an [ok] response without a readable body (a 204)
    is a success for it.  A response that is not [ok], a 404 for a task
    that is gone, makes it throw the error carrying the status. *)
Theorem deleteTask_returns_on_any_ok_reply (o : FetchOutcome unit) :
  (deleteTask_result o = Return tt <-> accepted o = true)
  /\ (forall code, deleteTask_result (HttpResponse true code None) = Return tt)
  /\ (forall code js,
        deleteTask_result (HttpResponse false code js)
        = Throw (HttpError (lit "Failed to delete task: ") code))
  /\ deleteTask_result NetworkFailure = Throw FetchRejected.
Proof.
  split; [|by repeat split].
  destruct o as [|[] code js]; simpl; split; intros H; try discriminate; reflexivity.
Qed.

(** The user id that [sendMessage] puts into the request is never the empty
    string, and feeding it back as the user id forwards it unchanged. *)
Theorem forwarded_user_is_never_empty (message : jsstring) (userId : option jsstring) :
  forwarded_user userId <> []
  /\ forwarded_user (Some (forwarded_user userId)) = forwarded_user userId
  /\ sendMessage_request message (Some (forwarded_user userId))
     = sendMessage_request message userId.
Proof.
  assert (Hne : forwarded_user userId <> []).
  { destruct userId as [[|c u]|]; simpl; discriminate. }
  assert (Hid : forwarded_user (Some (forwarded_user userId)) = forwarded_user userId).
  { unfold forwarded_user at 1. simpl.
    destruct (forwarded_user userId) eqn:E; [done | reflexivity]. }
  split; [exact Hne|]. split; [exact Hid|].
  unfold sendMessage_request. by rewrite Hid.
Qed.

(** ** The guards *)

(** The chat panel refuses a submission (and disables its Send button)
    exactly when the input consists of white space only, the empty input
    included, or a call is in flight. *)
Theorem chat_submit_blocked_iff (st : Chat.State) :
  Chat.submit_blocked st = true
  <-> Forall (fun c => is_white_space c = true) (Chat.inputMessage st)
      \/ Chat.isLoading st = true.
Proof.
  unfold Chat.submit_blocked. rewrite orb_true_iff, not_string_true, trim_blank.
  tauto.
Qed.

(** The add-task form issues no request exactly when the title consists of
    white space only, the empty title included; otherwise it issues the
    [createTask] request with the title as typed, untrimmed. *)
Theorem form_rejects_exactly_blank_titles (st : Home.State) :
  ((Home.handleSubmit_begin st).2 = None
   <-> Forall (fun c => is_white_space c = true) (tc_title (Home.newTask st)))
  /\ ((Home.handleSubmit_begin st).2 <> None ->
      (Home.handleSubmit_begin st).2
      = Some (mkRequest ApiTasks POST json_headers (TaskCreateBody (Home.newTask st)))
      /\ (Home.handleSubmit_begin st).1 = st).
Proof.
  rewrite <- trim_blank, <- not_string_true. unfold Home.handleSubmit_begin.
  destruct (not_string _); simpl.
  - split; [done|]. intros H. by destruct H.
  - split; [split; discriminate|]. done.
Qed.

(** ** The task page: replies in combination *)

Section HomeListFacts.

Import Home.

Lemma remove_task_cons task_id t l :
  remove_task task_id (t :: l)
  = if decide (id t = task_id) then remove_task task_id l
    else t :: remove_task task_id l.
Proof.
  unfold remove_task. rewrite filter_cons.
  destruct (decide (id t = task_id)) as [He|Hne].
  - by rewrite decide_False by tauto.
  - by rewrite decide_True by done.
Qed.

Lemma remove_task_absent task_id l :
  task_id ∉ id <$> l -> remove_task task_id l = l.
Proof.
  induction l as [|t l IH]; intros Hn; [reflexivity|].
  rewrite fmap_cons in Hn. apply not_elem_of_cons in Hn as [Hne Hn].
  rewrite remove_task_cons, decide_False by congruence. by rewrite IH.
Qed.

Lemma remove_task_gone task_id l : task_id ∉ id <$> remove_task task_id l.
Proof.
  intros H. apply list_elem_of_fmap in H as (t & Ht & Hin).
  apply list_elem_of_filter in Hin as [Hne _]. congruence.
Qed.


Lemma remove_task_replace_task task_id u l :
  id u = task_id ->
  remove_task task_id (replace_task task_id u l) = remove_task task_id l.
Proof.
  intros Hu. induction l as [|t l IH]; [reflexivity|].
  change (replace_task task_id u (t :: l))
    with ((if decide (id t = task_id) then u else t) :: replace_task task_id u l).
  rewrite !remove_task_cons, IH.
  destruct (decide (id t = task_id)) as [He|Hne].
  - by rewrite decide_True by done.
  - by rewrite decide_False by done.
Qed.

Lemma replace_task_ids task_id u l :
  id u = task_id -> id <$> replace_task task_id u l = id <$> l.
Proof.
  intros Hu. unfold replace_task. rewrite <- list_fmap_compose.
  apply list_fmap_ext. intros i t _. simpl. case_decide; congruence.
Qed.

Lemma remove_task_NoDup task_id l :
  NoDup (id <$> l) -> NoDup (id <$> remove_task task_id l).
Proof.
  intros Hnd. eapply sublist_NoDup; [exact Hnd|].
  apply fmap_sublist, sublist_filter.
Qed.

Lemma status_counts l :
  (HomeView.completed_count l + HomeView.pending_count l = length l)%nat.
Proof.
  unfold HomeView.completed_count, HomeView.pending_count.
  induction l as [|t l IH]; [reflexivity|].
  rewrite !filter_cons. destruct (status t) eqn:E.
  - rewrite decide_False, decide_True by done. simpl. lia.
  - rewrite decide_True, decide_False by done. simpl. lia.
Qed.

End HomeListFacts.

Lemma succeeded_tasks_false o :
  HomeSession.succeeded (HomeSession.TasksReply o) = false -> returned o = None.
Proof.
  simpl. intros H. apply bool_decide_eq_false in H.
  destruct (returned o); [|reflexivity]. destruct H. eauto.
Qed.

Lemma succeeded_task_false o :
  HomeSession.succeeded (HomeSession.TaskReply o) = false -> returned o = None.
Proof.
  simpl. intros H. apply bool_decide_eq_false in H.
  destruct (returned o); [|reflexivity]. destruct H. eauto.
Qed.

Lemma settle_failed (c : HomeSession.Call)
    (r : HomeSession.Reply) (st st' : Home.State) :
  HomeSession.settle c r st = Some st' ->
  HomeSession.succeeded r = false ->
  Home.tasks st' = Home.tasks st
  /\ Home.newTask st' = Home.newTask st
  /\ exists m, Home.error st' = Some m /\ HomeView.banner_of (Home.error st') = Some m.
Proof.
  intros Hs Hf.
  destruct c, r; simpl in Hs; try discriminate; injection Hs as <-.
  - apply succeeded_tasks_false in Hf.
    destruct (read_json_not_returned "Failed to fetch tasks: " o Hf) as [e He].
    unfold Home.fetchTasks_settle, getTasks_result. rewrite He. simpl. eauto.
  - apply succeeded_task_false in Hf.
    destruct (read_json_not_returned "Failed to create task: " o Hf) as [e He].
    unfold Home.handleSubmit_settle, createTask_result. rewrite He. simpl. eauto.
  - apply succeeded_task_false in Hf.
    destruct (read_json_not_returned "Failed to toggle task status: " o Hf) as [e He].
    unfold Home.handleToggleStatus_settle, toggleTaskStatus_result. rewrite He.
    simpl. eauto.
  - unfold Home.handleDelete_settle.
    destruct o as [|[] code js]; simpl in *; try discriminate; eauto.
Qed.

(** A call that fails, whichever handler issued it and however it fails
    (no connection, a status that is not ok, an unreadable body), leaves the
    task list and the content of the form as they are and puts a message
    into the error banner. *)
Theorem failed_call_changes_only_the_banner (c : HomeSession.Call)
    (r : HomeSession.Reply) (st st' : Home.State) :
  HomeSession.settle c r st = Some st' ->
  HomeSession.succeeded r = false ->
  Home.tasks st' = Home.tasks st
  /\ Home.newTask st' = Home.newTask st
  /\ exists m, Home.error st' = Some m /\ HomeView.banner_of (Home.error st') = Some m.
Proof. apply settle_failed. Qed.


(** A reply to a delete or a toggle of an id that no task of the list
    carries leaves the list as it is, whatever the reply. *)
Theorem absent_id_leaves_the_list (task_id : Z) (od : FetchOutcome unit)
    (ot : FetchOutcome Task) (st : Home.State) :
  task_id ∉ id <$> Home.tasks st ->
  Home.tasks (Home.handleDelete_settle task_id od st) = Home.tasks st
  /\ Home.tasks (Home.handleToggleStatus_settle task_id ot st) = Home.tasks st.
Proof.
  intros Hn. unfold Home.handleDelete_settle, Home.handleToggleStatus_settle.
  split.
  - destruct (deleteTask_result od); simpl; [by apply remove_task_absent | reflexivity].
  - destruct (toggleTaskStatus_result ot); simpl;
      [by apply replace_task_absent | reflexivity].
Qed.

(** When the reply to a toggle carries the task that was asked for, the
    ids of the list, in order, are what they were. *)
Theorem toggle_keeps_the_ids (task_id : Z) (o : FetchOutcome Task) (st : Home.State) :
  (forall u, returned o = Some u -> id u = task_id) ->
  id <$> Home.tasks (Home.handleToggleStatus_settle task_id o st)
  = id <$> Home.tasks st.
Proof.
  intros Hu. unfold Home.handleToggleStatus_settle, toggleTaskStatus_result.
  destruct (read_json _ o) as [u|e] eqn:E; simpl; [|reflexivity].
  apply replace_task_ids, Hu. by eapply read_json_returned.
Qed.

(** The ids of the list stay pairwise distinct through every reply,
    provided a loaded list has distinct ids, a created task has an id that
    is not in the list yet, and a toggled task has the id asked for. *)
Theorem keys_stay_distinct (c : HomeSession.Call) (r : HomeSession.Reply)
    (st st' : Home.State) :
  HomeSession.settle c r st = Some st' ->
  HomeSession.respects_keys c r st ->
  NoDup (id <$> Home.tasks st) ->
  NoDup (id <$> Home.tasks st').
Proof.
  intros Hs Hk Hnd.
  destruct c, r; simpl in Hs, Hk; try discriminate; injection Hs as <-.
  - unfold Home.fetchTasks_settle, getTasks_result.
    destruct (read_json _ o) as [l|e] eqn:E; simpl; [|exact Hnd].
    apply Hk. by eapply read_json_returned.
  - unfold Home.handleSubmit_settle, createTask_result.
    destruct (read_json _ o) as [t|e] eqn:E; simpl; [|exact Hnd].
    change (NoDup (id t :: (id <$> Home.tasks st))).
    apply NoDup_cons. split; [|exact Hnd].
    apply Hk. by eapply read_json_returned.
  - unfold Home.handleToggleStatus_settle, toggleTaskStatus_result.
    destruct (read_json _ o) as [u|e] eqn:E; simpl; [|exact Hnd].
    rewrite replace_task_ids; [exact Hnd|].
    apply Hk. by eapply read_json_returned.
  - unfold Home.handleDelete_settle.
    destruct (deleteTask_result o); simpl; [|exact Hnd].
    by apply remove_task_NoDup.
Qed.

(** A successful delete wins over a toggle of the same task whichever
    reply arrives first: a toggle reply that arrives after the delete
    does not bring the task back, and a delete that arrives after the
    toggle removes the toggled task (the reply carrying the id asked for). *)
Theorem delete_wins_over_toggle (task_id : Z) (od : FetchOutcome unit)
    (ot : FetchOutcome Task) (st : Home.State) :
  accepted od = true ->
  (forall u, returned ot = Some u -> id u = task_id) ->
  Home.tasks (Home.handleToggleStatus_settle task_id ot
                (Home.handleDelete_settle task_id od st))
    = Home.remove_task task_id (Home.tasks st)
  /\ Home.tasks (Home.handleDelete_settle task_id od
                   (Home.handleToggleStatus_settle task_id ot st))
     = Home.remove_task task_id (Home.tasks st).
Proof.
  intros Hd Hu.
  assert (Hdel : deleteTask_result od = Return tt).
  { by destruct od as [|[] code js]. }
  unfold Home.handleDelete_settle, Home.handleToggleStatus_settle,
    toggleTaskStatus_result.
  rewrite Hdel. split.
  - destruct (read_json _ ot) as [u|e]; simpl; [|reflexivity].
    apply replace_task_absent, remove_task_gone.
  - destruct (read_json _ ot) as [u|e] eqn:E; simpl; [|reflexivity].
    apply remove_task_replace_task, Hu. by eapply read_json_returned.
Qed.

(** On the page, the numbers of completed and of pending tasks in the
    header add up to the number of cards; the "No tasks yet" panel is shown
    exactly when there is no card, and the count badge exactly when there
    is one; the cards carry the tasks' ids as keys, in list order. *)
Theorem header_counts_add_up (st : Home.State) (completed pending : nat)
    (banner : option jsstring) (badge : option (nat * jsstring))
    (no_tasks_yet : bool) (rows : list HomeView.Row) :
  HomeView.render st = HomeView.Page completed pending banner badge no_tasks_yet rows ->
  (completed + pending = length rows)%nat
  /\ (no_tasks_yet = true <-> rows = [])
  /\ (badge = None <-> rows = [])
  /\ (forall n label, badge = Some (n, label) ->
        n = length rows /\ (label = lit "task" <-> n = 1%nat))
  /\ HomeView.row_key <$> rows = id <$> Home.tasks st.
Proof.
  unfold HomeView.render. destruct (Home.loading st); [discriminate|].
  intros [= <- <- <- <- <- <-]. rewrite length_fmap.
  split; [apply status_counts|].
  unfold HomeView.task_badge.
  destruct (Home.tasks st) as [|t [|t' l]]; simpl.
  - repeat split; try done.
  - repeat split; try done; intros; simplify_eq; done.
  - repeat split; try done; intros; simplify_eq; try done.
    by rewrite <- list_fmap_compose.
Qed.

(** ** The task page over time *)

Section HomeSessionFacts.

Import HomeSession.

Lemma replace_task_elem task_id u l t :
  t ∈ Home.replace_task task_id u l -> t = u \/ t ∈ l.
Proof.
  unfold Home.replace_task. intros H.
  apply list_elem_of_fmap in H as (x & -> & Hx). case_decide; auto.
Qed.

Lemma step_begin_page e s s' :
  step e s = Some s' ->
  (forall k r, e <> Settled k r) ->
  Home.tasks (page s') = Home.tasks (page s)
  /\ (Home.error (page s') = Home.error (page s) \/ exists m, Home.error (page s') = Some m)
  /\ (Home.loading (page s') = Home.loading (page s) \/ e = Mount).
Proof.
  intros Hs Hne. destruct e as [|name value| | | |k r]; simpl in Hs;
    try (injection Hs as <-).
  - simpl. repeat split; auto.
  - destruct name; simpl; repeat split; auto.
  - unfold issue, Home.handleSubmit_begin.
    destruct (not_string _); simpl; repeat split; eauto.
  - simpl. repeat split; auto.
  - simpl. repeat split; auto.
  - by destruct (Hne k r).
Qed.

Lemma step_settled k r s s' :
  step (Settled k r) s = Some s' ->
  exists c, pending s !! k = Some c /\ settle c r (page s) = Some (page s')
            /\ pending s' = delete k (pending s) /\ requests s' = requests s.
Proof.
  simpl. destruct (pending s !! k) as [c|]; simpl; [|discriminate].
  destruct (settle c r (page s)) as [st'|] eqn:Hset; simpl; [|discriminate].
  intros [= <-]. exists c. simpl. by rewrite Hset.
Qed.

Lemma settle_tasks_origin c r st st' t :
  settle c r st = Some st' ->
  t ∈ Home.tasks st' -> t ∈ Home.tasks st \/ t ∈ delivered r.
Proof.
  intros Hs Ht.
  destruct c, r; simpl in Hs; try discriminate; injection Hs as <-; simpl.
  - unfold Home.fetchTasks_settle, getTasks_result in Ht.
    destruct (read_json _ o) as [l|e] eqn:E; simpl in Ht; [|by left].
    apply read_json_returned in E. rewrite E. by right.
  - unfold Home.handleSubmit_settle, createTask_result in Ht.
    destruct (read_json _ o) as [u|e] eqn:E; simpl in Ht; [|by left].
    apply read_json_returned in E. rewrite E. simpl.
    apply elem_of_cons in Ht as [->|Ht]; [right; apply list_elem_of_here | by left].
  - unfold Home.handleToggleStatus_settle, toggleTaskStatus_result in Ht.
    destruct (read_json _ o) as [u|e] eqn:E; simpl in Ht; [|by left].
    apply read_json_returned in E. rewrite E. simpl.
    apply replace_task_elem in Ht as [->|Ht]; [right; apply list_elem_of_here | by left].
  - unfold Home.handleDelete_settle in Ht.
    destruct (deleteTask_result o); simpl in Ht; [|by left].
    apply list_elem_of_filter in Ht as [_ Ht]. by left.
Qed.

Lemma received_cons e es :
  received (e :: es)
  = match e with Settled _ r => delivered r | _ => [] end ++ received es.
Proof. reflexivity. Qed.

Lemma run_tasks_origin es s s' t :
  run es s = Some s' ->
  t ∈ Home.tasks (page s') -> t ∈ Home.tasks (page s) \/ t ∈ received es.
Proof.
  revert s. induction es as [|e es IH]; intros s Hrun Ht; simpl in Hrun.
  - injection Hrun as <-. by left.
  - destruct (step e s) as [s1|] eqn:E; [|discriminate].
    rewrite received_cons.
    destruct (IH _ Hrun Ht) as [H1|H1]; [|right; apply elem_of_app; by right].
    destruct e as [|name value| | | |k r];
      try (destruct (step_begin_page _ _ _ E) as (Hsame & _);
           [intros ??; discriminate | rewrite Hsame in H1; by left]).
    apply step_settled in E as (c & _ & Hset & _).
    destruct (settle_tasks_origin _ _ _ _ _ Hset H1) as [H2|H2]; [by left|].
    right. apply elem_of_app. by left.
Qed.

Lemma settle_changes_on_success c r st st' :
  settle c r st = Some st' ->
  Home.tasks st' <> Home.tasks st -> succeeded r = true.
Proof.
  intros Hs Hne. destruct (succeeded r) eqn:E; [reflexivity|].
  destruct (settle_failed _ _ _ _ Hs E) as [Hsame _]. by destruct Hne.
Qed.

End HomeSessionFacts.

(** Every task the page shows was delivered by a reply of the server: by
    the loaded list, by a reply to a create or by a reply to a toggle.  The
    page never makes up a task, and never shows one before the server has
    answered. *)
Theorem tasks_come_from_replies (es : list HomeSession.Event) (s : HomeSession.Session)
    (t : Task) :
  HomeSession.run es HomeSession.initial = Some s ->
  t ∈ Home.tasks (HomeSession.page s) ->
  t ∈ HomeSession.received es.
Proof.
  intros Hrun Ht. destruct (run_tasks_origin _ _ _ _ Hrun Ht) as [H|H]; [|exact H].
  by apply elem_of_nil in H.
Qed.

(** The task list changes only when a call settles with success: typing,
    submitting, clicking and failed calls leave it as it is. *)
Theorem list_changes_only_on_success (e : HomeSession.Event)
    (s s' : HomeSession.Session) :
  HomeSession.step e s = Some s' ->
  Home.tasks (HomeSession.page s') <> Home.tasks (HomeSession.page s) ->
  exists k r, e = HomeSession.Settled k r /\ HomeSession.succeeded r = true.
Proof.
  intros Hs Hne. destruct e as [|name value| | | |k r];
    try (destruct (step_begin_page _ _ _ Hs) as (Hsame & _);
         [intros ??; discriminate | by destruct Hne]).
  exists k, r. split; [reflexivity|].
  apply step_settled in Hs as (c & _ & Hset & _).
  by eapply settle_changes_on_success.
Qed.

(** Once a message is in the error banner, only a successful create takes
    it away: a successful reload, toggle or delete leaves the earlier
    message standing. *)
Theorem banner_cleared_only_by_create (e : HomeSession.Event)
    (s s' : HomeSession.Session) :
  HomeSession.step e s = Some s' ->
  Home.error (HomeSession.page s) <> None ->
  Home.error (HomeSession.page s') = None ->
  exists k o, e = HomeSession.Settled k (HomeSession.TaskReply o)
              /\ HomeSession.pending s !! k = Some HomeSession.CreateCall
              /\ is_Some (returned o).
Proof.
  intros Hs Hbefore Hafter. destruct e as [|name value| | | |k r];
    try (destruct (step_begin_page _ _ _ Hs) as (_ & [Hsame|[m Hm]] & _);
         [intros ??; discriminate | congruence | congruence]).
  apply step_settled in Hs as (c & Hk & Hset & _).
  destruct c, r; simpl in Hset; try discriminate; injection Hset as Hset;
    rewrite <- Hset in Hafter.
  - unfold Home.fetchTasks_settle in Hafter.
    destruct (getTasks_result o); simpl in Hafter; congruence.
  - exists k, o. split; [reflexivity|]. split; [exact Hk|].
    unfold Home.handleSubmit_settle, createTask_result in Hafter.
    destruct (read_json _ o) as [u|e] eqn:E; simpl in Hafter; [|discriminate].
    apply read_json_returned in E. by rewrite E.
  - unfold Home.handleToggleStatus_settle in Hafter.
    destruct (toggleTaskStatus_result o); simpl in Hafter; congruence.
  - unfold Home.handleDelete_settle in Hafter.
    destruct (deleteTask_result o); simpl in Hafter; congruence.
Qed.

(** Submitting the form does not clear it and does not hold back a second
    submission: with a title that is not blank, two submissions in a row
    issue the same [createTask] request twice and leave the page as it
    is. *)
Theorem double_submit_sends_twice (s : HomeSession.Session) :
  trim (tc_title (Home.newTask (HomeSession.page s))) <> [] ->
  HomeSession.run [HomeSession.SubmitForm; HomeSession.SubmitForm] s
  = Some (HomeSession.mkSession (HomeSession.page s)
            (HomeSession.pending s ++ [HomeSession.CreateCall; HomeSession.CreateCall])
            (HomeSession.requests s
             ++ [createTask_request (Home.newTask (HomeSession.page s));
                 createTask_request (Home.newTask (HomeSession.page s))])).
Proof.
  intros Hne. apply not_string_false in Hne.
  simpl. unfold Home.handleSubmit_begin. rewrite Hne. simpl. rewrite Hne. simpl.
  by rewrite <- !app_assoc.
Qed.

(** The spinner ends with the reply to the load, whatever that reply is,
    and nothing but a new mount brings it back. *)
Theorem spinner_ends_with_the_load :
  (forall o st, Home.loading (Home.fetchTasks_settle o st) = false
                /\ HomeView.render (Home.fetchTasks_settle o st) <> HomeView.Spinner)
  /\ (forall e s s', HomeSession.step e s = Some s' ->
        Home.loading (HomeSession.page s) = false ->
        Home.loading (HomeSession.page s') = true ->
        e = HomeSession.Mount).
Proof.
  split.
  - intros o st. split; [reflexivity|]. unfold HomeView.render. simpl. discriminate.
  - intros e s s' Hs Hoff Hon. destruct e as [|name value| | | |k r];
      try (destruct (step_begin_page _ _ _ Hs) as (_ & _ & [Hsame|He]);
           [intros ??; discriminate | congruence | congruence]);
      try reflexivity.
    apply step_settled in Hs as (c & _ & Hset & _).
    destruct c, r; simpl in Hset; try discriminate; injection Hset as Hset;
      rewrite <- Hset in Hon.
    + discriminate.
    + unfold Home.handleSubmit_settle in Hon.
      destruct (createTask_result o); simpl in Hon; congruence.
    + unfold Home.handleToggleStatus_settle in Hon.
      destruct (toggleTaskStatus_result o); simpl in Hon; congruence.
    + unfold Home.handleDelete_settle in Hon.
      destruct (deleteTask_result o); simpl in Hon; congruence.
Qed.

(** ** The chat panel over time *)

Section ChatSessionFacts.

Import Chat ChatView.

Variable userId : option jsstring.

Lemma run_preserves (P : Session -> Prop) :
  (forall e s s', step userId e s = Some s' -> P s -> P s') ->
  forall es s s', run userId es s = Some s' -> P s -> P s'.
Proof.
  intros Hstep es. induction es as [|e es IH]; intros s s' Hrun Hs; simpl in Hrun.
  - by injection Hrun as <-.
  - destruct (step userId e s) as [s1|] eqn:E; [|discriminate]. eauto.
Qed.

Lemma other_other r : other (other r) = r.
Proof. by destruct r. Qed.

Lemma alternates_snoc expect l m :
  alternates expect l = true ->
  role m = (if Nat.even (length l) then expect else other expect) ->
  alternates expect (l ++ [m]) = true.
Proof.
  revert expect. induction l as [|x l IH]; intros expect Ha Hm.
  - simpl in *. rewrite Hm. by rewrite bool_decide_eq_true_2.
  - change (length (x :: l)) with (S (length l)) in Hm.
    rewrite Nat.even_succ, <- Nat.negb_even in Hm.
    simpl in Ha |- *. apply andb_true_iff in Ha as [Hx Ha]. rewrite Hx. simpl.
    apply IH; [exact Ha|]. rewrite Hm, other_other.
    by destruct (Nat.even (length l)).
Qed.

Lemma alternates_last expect l m :
  alternates expect l = true ->
  last l = Some m ->
  role m = if Nat.odd (length l) then expect else other expect.
Proof.
  revert expect. induction l as [|x l IH]; intros expect Ha Hl; [discriminate|].
  simpl in Ha. apply andb_true_iff in Ha as [Hx Ha].
  apply bool_decide_eq_true_1 in Hx.
  destruct l as [|y l].
  - injection Hl as <-. exact Hx.
  - change (last (x :: y :: l)) with (last (y :: l)) in Hl.
    rewrite (IH _ Ha Hl), other_other.
    change (length (x :: y :: l)) with (S (length (y :: l))).
    rewrite Nat.odd_succ, <- Nat.negb_odd.
    by destruct (Nat.odd (length (y :: l))).
Qed.

Lemma step_well_formed e s s' :
  step userId e s = Some s' -> well_formed_session s -> well_formed_session s'.
Proof.
  intros Hs (Ha & Hl & Hf). unfold well_formed_session.
  destruct e as [text|now|now o]; simpl in Hs.
  - by injection Hs as <-.
  - destruct (submit_blocked (view s)) eqn:Hb.
    + rewrite handleSubmit_begin_blocked in Hs by done. by injection Hs as <-.
    + rewrite handleSubmit_begin_accepted in Hs by done. injection Hs as <-. simpl.
      unfold submit_blocked in Hb. apply orb_false_elim in Hb as [_ Hb].
      rewrite Hb in Hl, Hf. rewrite !length_app. simpl.
      rewrite Nat.add_1_r, Nat.odd_succ, <- Nat.negb_odd, <- Hl.
      split; [|split; [reflexivity | lia]].
      apply alternates_snoc; [exact Ha|]. simpl.
      by rewrite <- Nat.negb_odd, <- Hl.
  - destruct (in_flight s) as [|r rest] eqn:E; [discriminate|]. injection Hs as <-.
    assert (Hb : isLoading (view s) = true).
    { destruct (isLoading (view s)); [reflexivity | discriminate Hf]. }
    rewrite Hb in Hl, Hf. simpl.
    rewrite handleSubmit_settle_isLoading, handleSubmit_settle_messages.
    rewrite !length_app. simpl.
    rewrite Nat.add_1_r, Nat.odd_succ, <- Nat.negb_odd, <- Hl.
    split; [|split; [reflexivity | simpl in Hf; lia]].
    apply alternates_snoc; [exact Ha|]. simpl.
    by rewrite <- Nat.negb_odd, <- Hl.
Qed.

Lemma reachable_well_formed es s :
  run userId es initial = Some s -> well_formed_session s.
Proof.
  intros Hrun. apply (run_preserves _ step_well_formed _ _ _ Hrun).
  by repeat split.
Qed.

Lemma step_sent_user_messages e s s' :
  step userId e s = Some s' ->
  message_of <$> sent s = (fun m => Some (content m)) <$> user_messages (messages (view s)) ->
  message_of <$> sent s' = (fun m => Some (content m)) <$> user_messages (messages (view s')).
Proof.
  intros Hs Hinv. destruct e as [text|now|now o]; simpl in Hs.
  - by injection Hs as <-.
  - destruct (submit_blocked (view s)) eqn:Hb.
    + rewrite handleSubmit_begin_blocked in Hs by done. by injection Hs as <-.
    + rewrite handleSubmit_begin_accepted in Hs by done. injection Hs as <-. simpl.
      unfold user_messages in *. rewrite fmap_app, filter_app, fmap_app, Hinv.
      reflexivity.
  - destruct (in_flight s) as [|r rest]; [discriminate|]. injection Hs as <-. simpl.
    rewrite handleSubmit_settle_messages.
    unfold user_messages in *. rewrite filter_app, Hinv.
    change (filter (fun m => role m = user) [?x]) with (@nil Message).
    by rewrite app_nil_r.
Qed.

Lemma step_sent_shape e s s' :
  step userId e s = Some s' ->
  Forall (fun req => exists m, req = sendMessage_request m userId /\ trim m <> []) (sent s) ->
  Forall (fun req => exists m, req = sendMessage_request m userId /\ trim m <> []) (sent s').
Proof.
  intros Hs Hinv. destruct e as [text|now|now o]; simpl in Hs.
  - by injection Hs as <-.
  - destruct (submit_blocked (view s)) eqn:Hb.
    + rewrite handleSubmit_begin_blocked in Hs by done. by injection Hs as <-.
    + rewrite handleSubmit_begin_accepted in Hs by done. injection Hs as <-. simpl.
      apply Forall_app. split; [exact Hinv|]. apply Forall_singleton.
      exists (inputMessage (view s)). split; [reflexivity|].
      unfold submit_blocked in Hb. apply orb_false_elim in Hb as [Hb _].
      by apply not_string_false.
  - destruct (in_flight s) as [|r rest]; [discriminate|]. by injection Hs as <-.
Qed.

Lemma lit_inj (a b : string) : lit a = lit b -> a = b.
Proof.
  unfold lit. intros H.
  assert (Hl : list_ascii_of_string a = list_ascii_of_string b).
  { revert H. generalize (list_ascii_of_string a) (list_ascii_of_string b).
    intros l1. induction l1 as [|x l1 IH]; intros [|y l2] H; try discriminate;
      [reflexivity|].
    injection H as Hxy Hrest. f_equal; [|by apply IH].
    by rewrite <- (ascii_N_embedding x), <- (ascii_N_embedding y), Hxy. }
  by rewrite <- (string_of_list_ascii_of_string a),
             <- (string_of_list_ascii_of_string b), Hl.
Qed.

End ChatSessionFacts.

(** In every state the panel reaches, the transcript alternates between the
    user and the assistant, beginning with the user, and its last message is
    the user's exactly while a call is in flight: every user message is
    answered before the next one is taken. *)
Theorem transcript_alternates (userId : option jsstring) (es : list Chat.Event)
    (s : Chat.Session) :
  Chat.run userId es Chat.initial = Some s ->
  ChatView.alternates Chat.user (Chat.messages (Chat.view s)) = true
  /\ Chat.isLoading (Chat.view s) = Nat.odd (length (Chat.messages (Chat.view s)))
  /\ (Chat.isLoading (Chat.view s) = true
      <-> Chat.role <$> last (Chat.messages (Chat.view s)) = Some Chat.user).
Proof.
  intros Hrun. destruct (reachable_well_formed _ _ _ Hrun) as (Ha & Hl & _).
  split; [exact Ha|]. split; [exact Hl|].
  destruct (last (Chat.messages (Chat.view s))) as [m|] eqn:E; simpl.
  - rewrite (alternates_last _ _ _ Ha E), <- Hl.
    destruct (Chat.isLoading (Chat.view s)); simpl; split; congruence.
  - apply last_None in E. rewrite E in Hl. simpl in Hl. rewrite Hl.
    split; discriminate.
Qed.

(** In every state the panel reaches, the requests sent so far are, one for
    one and in order, the user messages of the transcript: each carries the
    text of its message as typed. *)
Theorem requests_match_user_messages (userId : option jsstring)
    (es : list Chat.Event) (s : Chat.Session) :
  Chat.run userId es Chat.initial = Some s ->
  Chat.message_of <$> Chat.sent s
  = (fun m => Some (Chat.content m))
      <$> ChatView.user_messages (Chat.messages (Chat.view s)).
Proof.
  intros Hrun.
  by apply (run_preserves userId _ (step_sent_user_messages userId) _ _ _ Hrun).
Qed.

(** Every request the panel sends is a [POST] to the chat endpoint whose
    message is not blank and whose user id is the one forwarded for the
    panel's [userId] prop, the same for the whole session. *)
Theorem chat_requests_are_well_formed (userId : option jsstring)
    (es : list Chat.Event) (s : Chat.Session) (req : Request) :
  Chat.run userId es Chat.initial = Some s ->
  req ∈ Chat.sent s ->
  exists m, req = mkRequest ApiChat POST json_headers (ChatBody m (forwarded_user userId))
            /\ trim m <> [].
Proof.
  intros Hrun Hin.
  assert (H : Forall (fun req => exists m, req = sendMessage_request m userId
                                            /\ trim m <> []) (Chat.sent s)).
  { apply (run_preserves userId _ (step_sent_shape userId) _ _ _ Hrun). constructor. }
  rewrite Forall_forall in H. exact (H _ Hin).
Qed.

(** Two messages get the same id exactly when [Date.now()] read the same
    millisecond for both: a reply that settles within the millisecond of
    its submission shares its React key with the user's message. *)
Theorem message_ids_follow_the_clock (c1 c2 : Chat.Clock) (text1 text2 : jsstring)
    (r1 r2 : Chat.Role) :
  Chat.msg_id (Chat.new_message c1 text1 r1) = Chat.msg_id (Chat.new_message c2 text2 r2)
  <-> Chat.date_now c1 = Chat.date_now c2.
Proof.
  simpl. split.
  - intros H. apply lit_inj in H. by apply (inj pretty) in H.
  - by intros ->.
Qed.

(** While a call is in flight the transcript is not empty, so that the
    "Thinking..." indicator, which is rendered with the transcript, is
    shown exactly while the panel is loading. *)
Theorem thinking_is_shown_while_loading (userId : option jsstring)
    (es : list Chat.Event) (s : Chat.Session) :
  Chat.run userId es Chat.initial = Some s ->
  ChatView.thinking_shown (Chat.view s) = Chat.isLoading (Chat.view s).
Proof.
  intros Hrun. destruct (reachable_well_formed _ _ _ Hrun) as (_ & Hl & _).
  unfold ChatView.thinking_shown. rewrite Hl.
  by destruct (Chat.messages (Chat.view s)).
Qed.

(** When a call settles, with a reply or with a failure, the panel takes
    the next submission: text typed afterwards that is not blank is sent. *)
Theorem panel_takes_the_next_turn (userId : option jsstring) (t_settle t_next : Chat.Clock)
    (o : FetchOutcome ChatReply) (text : jsstring) (s s1 : Chat.Session) :
  Chat.step userId (Chat.Settle t_settle o) s = Some s1 ->
  trim text <> [] ->
  exists s2,
    Chat.run userId [Chat.Change text; Chat.Submit t_next] s1 = Some s2
    /\ Chat.sent s2 = Chat.sent s ++ [sendMessage_request text userId]
    /\ Chat.isLoading (Chat.view s2) = true
    /\ Chat.inputMessage (Chat.view s2) = lit "".
Proof.
  intros Hs Hne. simpl in Hs.
  destruct (Chat.in_flight s) as [|r rest]; [discriminate|]. injection Hs as <-.
  eexists. simpl. rewrite handleSubmit_begin_accepted.
  - split; [reflexivity|]. simpl. done.
  - unfold Chat.submit_blocked. simpl.
    rewrite handleSubmit_settle_isLoading.
    apply not_string_false in Hne. by rewrite Hne.
Qed.

(** ** Instances *)

Lemma form_rejects_exactly_blank_titles_witness :
  (Home.handleSubmit_begin MoreSamples.page_with_error).2 <> None
  /\ (Home.handleSubmit_begin MoreSamples.page_with_error).1 = MoreSamples.page_with_error
  /\ (Home.handleSubmit_begin Samples.blank_form).2 = None.
Proof.
  assert (H : (Home.handleSubmit_begin MoreSamples.page_with_error).2 <> None)
    by (vm_compute; discriminate).
  split; [exact H|]. split.
  - exact (proj2 (proj2 (form_rejects_exactly_blank_titles _) H)).
  - apply (proj1 (form_rejects_exactly_blank_titles Samples.blank_form)).
    apply trim_blank. reflexivity.
Defined.

Lemma failed_call_changes_only_the_banner_witness :
  exists st',
    HomeSession.settle (HomeSession.ToggleCall 2)
      (HomeSession.TaskReply MoreSamples.not_found)
      (Home.mkState Samples.three_tasks Home.empty_form false None) = Some st'
    /\ Home.tasks st' = Samples.three_tasks
    /\ Home.error st' = Some (lit "Failed to update task status. Please try again.").
Proof.
  eexists. split; [reflexivity|].
  destruct (failed_call_changes_only_the_banner (HomeSession.ToggleCall 2)
              (HomeSession.TaskReply MoreSamples.not_found)
              (Home.mkState Samples.three_tasks Home.empty_form false None)
              _ eq_refl eq_refl) as (Ht & _ & _).
  split; [exact Ht | reflexivity].
Defined.

Lemma absent_id_leaves_the_list_witness :
  (7 ∉ id <$> Samples.three_tasks)
  /\ Home.tasks (Home.handleDelete_settle 7 (HttpResponse true 204 None)
                   (Home.mkState Samples.three_tasks Home.empty_form false None))
     = Samples.three_tasks.
Proof.
  assert (H : 7 ∉ id <$> Samples.three_tasks).
  { apply (bool_decide_unpack _). vm_compute. reflexivity. }
  split; [exact H|].
  exact (proj1 (absent_id_leaves_the_list 7 (HttpResponse true 204 None)
                  MoreSamples.not_found
                  (Home.mkState Samples.three_tasks Home.empty_form false None) H)).
Defined.

Lemma toggle_keeps_the_ids_witness :
  id <$> Home.tasks (Home.handleToggleStatus_settle 2
                       (HttpResponse true 200 (Some MoreSamples.toggled))
                       (Home.mkState Samples.three_tasks Home.empty_form false None))
  = [1; 2; 3].
Proof.
  rewrite toggle_keeps_the_ids; [reflexivity|].
  intros u [= <-]. reflexivity.
Defined.

Lemma keys_stay_distinct_witness :
  NoDup (id <$> Samples.three_tasks)
  /\ NoDup (id <$> MoreSamples.created :: Samples.three_tasks).
Proof.
  assert (Hnd : NoDup (id <$> Samples.three_tasks)).
  { apply (bool_decide_unpack _). vm_compute. reflexivity. }
  split; [exact Hnd|].
  apply (keys_stay_distinct HomeSession.CreateCall MoreSamples.created_reply
           (Home.mkState Samples.three_tasks Home.empty_form false None)
           (Home.mkState (MoreSamples.created :: Samples.three_tasks)
              Home.empty_form false None)).
  - reflexivity.
  - simpl. intros t [= <-]. apply (bool_decide_unpack _). vm_compute. reflexivity.
  - exact Hnd.
Defined.

Lemma delete_wins_over_toggle_witness :
  Home.tasks (Home.handleDelete_settle 2 (HttpResponse true 204 None)
                (Home.handleToggleStatus_settle 2
                   (HttpResponse true 200 (Some MoreSamples.toggled))
                   (Home.mkState Samples.three_tasks Home.empty_form false None)))
  = [Samples.task 1 "Buy milk" incomplete; Samples.task 3 "Pay rent" incomplete].
Proof.
  rewrite (proj2 (delete_wins_over_toggle 2 (HttpResponse true 204 None)
                    (HttpResponse true 200 (Some MoreSamples.toggled))
                    (Home.mkState Samples.three_tasks Home.empty_form false None)
                    eq_refl
                    (fun u H => f_equal (fun o => from_option id 2 o) (eq_sym H)))).
  reflexivity.
Defined.

Lemma header_counts_add_up_witness :
  HomeView.render MoreSamples.page_with_error
  = HomeView.Page 1 2 (Some (lit "Title is required")) (Some (3%nat, lit "tasks")) false
      (HomeView.row <$> Samples.three_tasks)
  /\ (1 + 2 = length (HomeView.row <$> Samples.three_tasks))%nat.
Proof.
  assert (H : HomeView.render MoreSamples.page_with_error
              = HomeView.Page 1 2 (Some (lit "Title is required"))
                  (Some (3%nat, lit "tasks")) false
                  (HomeView.row <$> Samples.three_tasks)) by reflexivity.
  split; [exact H|]. exact (proj1 (header_counts_add_up _ _ _ _ _ _ _ H)).
Defined.

Lemma tasks_come_from_replies_witness :
  exists s,
    HomeSession.run MoreSamples.a_visit HomeSession.initial = Some s
    /\ Home.tasks (HomeSession.page s)
       = [MoreSamples.created; Samples.task 2 "Call mom" complete;
          Samples.task 3 "Pay rent" incomplete]
    /\ MoreSamples.created ∈ HomeSession.received MoreSamples.a_visit.
Proof.
  eexists. split; [vm_compute; reflexivity|]. split; [reflexivity|].
  eapply tasks_come_from_replies; [vm_compute; reflexivity|].
  apply list_elem_of_here.
Defined.

Lemma list_changes_only_on_success_witness :
  exists s',
    HomeSession.step (HomeSession.Settled 0 MoreSamples.created_reply)
      MoreSamples.creating = Some s'
    /\ Home.tasks (HomeSession.page s') = MoreSamples.created :: Samples.three_tasks
    /\ exists k r, HomeSession.Settled 0 MoreSamples.created_reply
                   = HomeSession.Settled k r
                   /\ HomeSession.succeeded r = true.
Proof.
  exists MoreSamples.after_create. split; [reflexivity|]. split; [reflexivity|].
  apply (list_changes_only_on_success
           (HomeSession.Settled 0 MoreSamples.created_reply)
           MoreSamples.creating MoreSamples.after_create eq_refl).
  simpl. intros H. apply (f_equal length) in H. discriminate H.
Defined.

Lemma banner_cleared_only_by_create_witness :
  exists s',
    HomeSession.step (HomeSession.Settled 0 MoreSamples.created_reply)
      MoreSamples.creating = Some s'
    /\ Home.error (HomeSession.page MoreSamples.creating) <> None
    /\ Home.error (HomeSession.page s') = None
    /\ exists k o, HomeSession.Settled 0 MoreSamples.created_reply
                   = HomeSession.Settled k (HomeSession.TaskReply o)
                   /\ HomeSession.pending MoreSamples.creating !! k
                      = Some HomeSession.CreateCall
                   /\ is_Some (returned o).
Proof.
  exists MoreSamples.after_create.
  split; [reflexivity|]. split; [discriminate|]. split; [reflexivity|].
  apply (banner_cleared_only_by_create
           (HomeSession.Settled 0 MoreSamples.created_reply)
           MoreSamples.creating MoreSamples.after_create eq_refl);
    [discriminate | reflexivity].
Defined.

Lemma double_submit_sends_twice_witness :
  exists s,
    HomeSession.run [HomeSession.SubmitForm; HomeSession.SubmitForm]
      (HomeSession.mkSession MoreSamples.page_with_error [] []) = Some s
    /\ length (HomeSession.requests s) = 2%nat
    /\ HomeSession.page s = MoreSamples.page_with_error.
Proof.
  eexists. split.
  - apply double_submit_sends_twice. vm_compute. discriminate.
  - split; reflexivity.
Defined.

Lemma spinner_ends_with_the_load_witness :
  HomeView.render Home.initial = HomeView.Spinner
  /\ HomeView.render (Home.fetchTasks_settle NetworkFailure Home.initial)
     <> HomeView.Spinner.
Proof.
  split; [reflexivity|].
  exact (proj2 (proj1 spinner_ends_with_the_load NetworkFailure Home.initial)).
Defined.

Lemma transcript_alternates_witness :
  exists s,
    Chat.run Samples.host_user MoreSamples.a_chat Chat.initial = Some s
    /\ Chat.role <$> Chat.messages (Chat.view s) = [Chat.user; Chat.assistant; Chat.user]
    /\ ChatView.alternates Chat.user (Chat.messages (Chat.view s)) = true.
Proof.
  eexists. split; [vm_compute; reflexivity|]. split; [reflexivity|].
  eapply (fun H => proj1 (transcript_alternates Samples.host_user MoreSamples.a_chat _ H)).
  vm_compute; reflexivity.
Defined.

Lemma requests_match_user_messages_witness :
  exists s,
    Chat.run Samples.host_user MoreSamples.a_chat Chat.initial = Some s
    /\ Chat.message_of <$> Chat.sent s
       = (fun m => Some (Chat.content m))
           <$> ChatView.user_messages (Chat.messages (Chat.view s)).
Proof.
  eexists. split; [vm_compute; reflexivity|].
  apply (requests_match_user_messages Samples.host_user MoreSamples.a_chat).
  vm_compute; reflexivity.
Defined.

Lemma chat_requests_are_well_formed_witness :
  exists s m,
    Chat.run Samples.host_user MoreSamples.a_chat Chat.initial = Some s
    /\ sendMessage_request (lit "Show my tasks") Samples.host_user ∈ Chat.sent s
    /\ sendMessage_request (lit "Show my tasks") Samples.host_user
       = mkRequest ApiChat POST json_headers
           (ChatBody m (forwarded_user Samples.host_user))
    /\ trim m <> [].
Proof.
  eexists.
  assert (Hrun : Chat.run Samples.host_user MoreSamples.a_chat Chat.initial = Some _)
    by (vm_compute; reflexivity).
  destruct (chat_requests_are_well_formed Samples.host_user MoreSamples.a_chat _
              (sendMessage_request (lit "Show my tasks") Samples.host_user) Hrun
              (list_elem_of_here _ _)) as (m & Hm & Hne).
  exists m. split; [exact Hrun|]. split; [apply list_elem_of_here|]. split; assumption.
Defined.

Lemma thinking_is_shown_while_loading_witness :
  exists s,
    Chat.run Samples.host_user MoreSamples.a_chat Chat.initial = Some s
    /\ Chat.isLoading (Chat.view s) = true
    /\ ChatView.thinking_shown (Chat.view s) = Chat.isLoading (Chat.view s).
Proof.
  eexists. split; [vm_compute; reflexivity|]. split; [reflexivity|].
  apply (thinking_is_shown_while_loading Samples.host_user MoreSamples.a_chat).
  vm_compute; reflexivity.
Defined.

Lemma panel_takes_the_next_turn_witness :
  exists s1 s2,
    Chat.step Samples.host_user (Chat.Settle Samples.t2 NetworkFailure)
      (Chat.mkSession Samples.busy_panel
         [sendMessage_request (lit "Add a task to buy milk") Samples.host_user] [])
    = Some s1
    /\ Chat.run Samples.host_user
         [Chat.Change (lit "Show my tasks"); Chat.Submit Samples.t3] s1 = Some s2
    /\ Chat.sent s2 = [sendMessage_request (lit "Show my tasks") Samples.host_user].
Proof.
  eexists.
  assert (Hs : Chat.step Samples.host_user (Chat.Settle Samples.t2 NetworkFailure)
                 (Chat.mkSession Samples.busy_panel
                    [sendMessage_request (lit "Add a task to buy milk")
                       Samples.host_user] [])
               = Some _) by reflexivity.
  assert (Hne : trim (lit "Show my tasks") <> []) by (vm_compute; discriminate).
  destruct (panel_takes_the_next_turn Samples.host_user Samples.t2 Samples.t3
              NetworkFailure (lit "Show my tasks") _ _ Hs Hne)
    as (s2 & Hrun & Hsent & _).
  exists s2. split; [exact Hs|]. split; [exact Hrun | exact Hsent].
Defined.
